(** * lab0/c_src/main.c: generation and binary export of tagged records

    A shallow embedding of the C program and the properties of its
    record generator and of the binary dump it writes.

    Conventions of the embedding.
    - [int] values ([i], the two static counters, the [type] fields) are
      [Z]; signed overflow is undefined behaviour and is modelled as such.
    - A [float] is its IEEE-754 binary32 bit pattern, a [Z] below [2^32].
    - [char] arrays are lists of [Byte.byte].
    - The C functions read and write process state (two [static]
      counters, the clock, [stdout], the heap block, the output file):
      they are computations in a state monad [M] whose results are
      either [Done] or [Undefined]: an operation whose behaviour the C
      standard leaves undefined was reached, in the state given.
    - The heap is the one block [main] allocates, a list of records
      not yet initialised ([None]) or stored ([Some]); the bytes of a
      record are produced when [fwrite] reads it, under the platform's
      sizes, alignments and byte order. *)

From Stdlib Require Import ZArith List Lia Bool.
From Stdlib Require Import Strings.String Strings.Byte.
From stdpp Require Import base list.

Import ListNotations.
Local Open Scope Z_scope.

(** ** Machine integers *)

Definition INT_MAX : Z := 2147483647.
Definition INT_MIN : Z := -2147483648.

(** Conversion of an [int] to [uint32_t] (the usual arithmetic
    conversions applied by [i < len]). *)
Definition to_uint32 (i : Z) : Z := i mod 2 ^ 32.

(** ** Enumerations, tables and record types *)

Inductive export_type_e : Type := VALUE | M_VALUE | MESSAGE.

(** The enumerators' integer values: [VALUE = 1], the others follow. *)
Definition enum_value (t : export_type_e) : Z :=
  match t with
  | VALUE => 1
  | M_VALUE => 2
  | MESSAGE => 3
  end.

Definition EXPORT_STRINGS_LEN : Z := 7.
Definition FLOAT_ARRAY_LEN : Z := 10.
Definition EXPORT_DATA_LEN : Z := 100.

(** [char a[n] = "lit"]: the characters of the literal, the rest of the
    array zero. *)
Definition char_array (n : nat) (lit : string) : list byte :=
  take n (list_byte_of_string lit ++ replicate n x00).

Definition export_strings : list (list byte) :=
  map (char_array 21)
    [ "Bella"; "Test"; "Pippo"; "Pluto"; "42";
      "AnswerToTheUniverse"; "E tutto il resto..." ]%string.

(** A [float] is held as its binary32 bit pattern. *)
Abbreviation float := Z.

(** [1.0 .. 10.0] as binary32 bit patterns. *)
Definition float_array : list float :=
  [ 0x3f800000; 0x40000000; 0x40400000; 0x40800000; 0x40a00000;
    0x40c00000; 0x40e00000; 0x41000000; 0x41100000; 0x41200000 ].

Record ValueStruct : Type := mkValueStruct {
  vs_type : Z;
  vs_val : float;
  vs_timestamp : Z
}.

Record MValueStruct : Type := mkMValueStruct {
  mvs_type : Z;
  mvs_val : list float;
  mvs_timestamp : Z
}.

Record MessageStruct : Type := mkMessageStruct {
  ms_type : Z;
  ms_message : list byte
}.

(** The anonymous union of [ExportData]: the member last stored. *)
Inductive payload : Type :=
| U_val (v : ValueStruct)
| U_mvals (m : MValueStruct)
| U_messages (m : MessageStruct).

Record ExportData : Type := mkExportData {
  type : Z;
  member : payload
}.

(** ** Object representation

    Sizes, alignments and byte order are the platform's. [int] and
    [float] take 4 bytes; [long] takes 8 bytes on LP64 and 4 on ILP32;
    each scalar is aligned to its size. *)

Inductive data_model : Type := LP64 | ILP32.
Inductive byte_order : Type := LittleEndian | BigEndian.

Record abi : Type := mkAbi {
  model : data_model;
  order : byte_order
}.

Definition sizeof_int : nat := 4.
Definition sizeof_float : nat := 4.
Definition sizeof_long (a : abi) : nat :=
  match model a with
  | LP64 => 8
  | ILP32 => 4
  end.

(** A member of a struct or union: its size and its alignment. *)
Definition field : Type := (nat * nat)%type.

Definition align_up (n a : nat) : nat := ((n + a - 1) / a * a)%nat.

(** Offsets of the members of a struct laid out from [pos]: each member
    at the next multiple of its alignment. *)
Fixpoint field_offsets (pos : nat) (fs : list field) : list nat :=
  match fs with
  | [] => []
  | (sz, al) :: fs' =>
      let o := align_up pos al in o :: field_offsets (o + sz)%nat fs'
  end.

Fixpoint fields_end (pos : nat) (fs : list field) : nat :=
  match fs with
  | [] => pos
  | (sz, al) :: fs' => fields_end (align_up pos al + sz)%nat fs'
  end.

Definition max_align (fs : list field) : nat :=
  fold_right (fun f m => Nat.max (snd f) m) 1%nat fs.

Definition struct_layout (fs : list field) : field :=
  (align_up (fields_end 0 fs) (max_align fs), max_align fs).

Definition union_layout (fs : list field) : field :=
  (align_up (fold_right (fun f m => Nat.max (fst f) m) 0%nat fs) (max_align fs),
   max_align fs).

Definition offsetof (fs : list field) (k : nat) : nat :=
  nth k (field_offsets 0 fs) 0%nat.

Definition int_field : field := (sizeof_int, sizeof_int).
Definition float_field : field := (sizeof_float, sizeof_float).
Definition long_field (a : abi) : field := (sizeof_long a, sizeof_long a).

Definition ValueStruct_fields (a : abi) : list field :=
  [int_field; float_field; long_field a].
Definition MValueStruct_fields (a : abi) : list field :=
  [int_field; ((10 * sizeof_float)%nat, sizeof_float); long_field a].
Definition MessageStruct_fields : list field :=
  [int_field; (21%nat, 1%nat)].

Definition union_fields (a : abi) : list field :=
  [struct_layout (ValueStruct_fields a);
   struct_layout (MValueStruct_fields a);
   struct_layout MessageStruct_fields].

Definition ExportData_fields (a : abi) : list field :=
  [int_field; union_layout (union_fields a)].

Definition sizeof_ExportData (a : abi) : nat :=
  fst (struct_layout (ExportData_fields a)).

(** Bytes and integers. *)
Definition byte_of_Z (z : Z) : byte :=
  match Byte.of_N (Z.to_N (z mod 256)) with
  | Some b => b
  | None => x00
  end.

Definition Z_of_byte (b : byte) : Z := Z.of_N (Byte.to_N b).

(** The [n] low-order bytes of [v], least significant first (two's
    complement for a negative [v]). *)
Fixpoint le_bytes (n : nat) (v : Z) : list byte :=
  match n with
  | O => []
  | S n' => byte_of_Z v :: le_bytes n' (v / 256)
  end.

Definition encode_int (a : abi) (n : nat) (v : Z) : list byte :=
  match order a with
  | LittleEndian => le_bytes n v
  | BigEndian => rev (le_bytes n v)
  end.

(** Storing [bs] at offset [off] of a block. *)
Definition poke (off : nat) (bs blk : list byte) : list byte :=
  take off blk ++ bs ++ drop (off + length bs) blk.

Definition repr_ValueStruct (a : abi) (base : nat) (v : ValueStruct)
    (blk : list byte) : list byte :=
  let fs := ValueStruct_fields a in
  poke (base + offsetof fs 2) (encode_int a (sizeof_long a) (vs_timestamp v))
    (poke (base + offsetof fs 1) (encode_int a sizeof_float (vs_val v))
      (poke (base + offsetof fs 0) (encode_int a sizeof_int (vs_type v)) blk)).

Definition repr_MValueStruct (a : abi) (base : nat) (m : MValueStruct)
    (blk : list byte) : list byte :=
  let fs := MValueStruct_fields a in
  poke (base + offsetof fs 2) (encode_int a (sizeof_long a) (mvs_timestamp m))
    (poke (base + offsetof fs 1)
       (concat (map (encode_int a sizeof_float) (mvs_val m)))
      (poke (base + offsetof fs 0) (encode_int a sizeof_int (mvs_type m)) blk)).

Definition repr_MessageStruct (a : abi) (base : nat) (m : MessageStruct)
    (blk : list byte) : list byte :=
  let fs := MessageStruct_fields in
  poke (base + offsetof fs 1) (ms_message m)
    (poke (base + offsetof fs 0) (encode_int a sizeof_int (ms_type m)) blk).

(** The object representation of a record: the members stored over a
    block [blk] of unspecified bytes. *)
Definition repr_ExportData (a : abi) (blk : list byte) (d : ExportData)
    : list byte :=
  let fs := ExportData_fields a in
  let blk' := poke (offsetof fs 0) (encode_int a sizeof_int (type d)) blk in
  match member d with
  | U_val v => repr_ValueStruct a (offsetof fs 1) v blk'
  | U_mvals m => repr_MValueStruct a (offsetof fs 1) m blk'
  | U_messages m => repr_MessageStruct a (offsetof fs 1) m blk'
  end.

(** ** Process state and environment *)

Inductive pointer : Type := NULL | Block.
Inductive stream : Type := NULL_stream | File.

(** What the program cannot control: the clock, whether [malloc] and
    [fopen] succeed, how many bytes the output device accepts, and the
    values of the bytes the standard leaves unspecified (padding, the
    part of the union the stored member does not cover). *)
Record env : Type := mkEnv {
  clock : nat -> Z;
  malloc_ok : bool;
  fopen_ok : bool;
  sink_room : option nat;
  junk : nat -> nat -> byte
}.

Record world : Type := mkWorld {
  val_counter : Z;
  string_counter : Z;
  ticks : nat;
  stdout : list (Z * Z);
  heap : list (option ExportData);
  sink : list byte
}.

Definition set_val_counter (c : Z) (w : world) : world :=
  mkWorld c (string_counter w) (ticks w) (stdout w) (heap w) (sink w).
Definition set_string_counter (c : Z) (w : world) : world :=
  mkWorld (val_counter w) c (ticks w) (stdout w) (heap w) (sink w).
Definition set_ticks (n : nat) (w : world) : world :=
  mkWorld (val_counter w) (string_counter w) n (stdout w) (heap w) (sink w).
Definition set_stdout (o : list (Z * Z)) (w : world) : world :=
  mkWorld (val_counter w) (string_counter w) (ticks w) o (heap w) (sink w).
Definition set_heap (h : list (option ExportData)) (w : world) : world :=
  mkWorld (val_counter w) (string_counter w) (ticks w) (stdout w) h (sink w).
Definition set_sink (s : list byte) (w : world) : world :=
  mkWorld (val_counter w) (string_counter w) (ticks w) (stdout w) (heap w) s.

(** The state of a starting process: both static counters are [0],
    nothing was printed, nothing is allocated; [old] is what the output
    file holds before the run. *)
Definition initial_world (old : list byte) : world :=
  mkWorld 0 0 0%nat [] [] old.

(** ** The monad of C computations *)

Inductive result (A : Type) : Type :=
| Done (a : A) (w : world)
| Undefined (w : world).
Arguments Done {A} a w.
Arguments Undefined {A} w.

Definition M (A : Type) : Type := world -> result A.

Definition ret {A : Type} (a : A) : M A := fun w => Done a w.

Definition bind {A B : Type} (m : M A) (k : A -> M B) : M B :=
  fun w =>
    match m w with
    | Done a w' => k a w'
    | Undefined w' => Undefined w'
    end.

Definition undefined {A : Type} : M A := fun w => Undefined w.
Definition get {A : Type} (f : world -> A) : M A := fun w => Done (f w) w.
Definition modify (f : world -> world) : M unit := fun w => Done tt (f w).

Notation "'let*' x ':=' m 'in' k" := (bind m (fun x => k))
  (at level 10, x name, m at level 100, k at level 200, only parsing).
Notation "'do' m 'then' k" := (bind m (fun _ => k))
  (at level 10, m at level 100, k at level 200, only parsing).

(** [a + b] on [int]: overflow is undefined. *)
Definition int_add (a b : Z) : M Z :=
  if (INT_MIN <=? a + b) && (a + b <=? INT_MAX) then ret (a + b) else undefined.

(** [a[i]] on an array: outside the array is undefined. *)
Definition array_read {A : Type} (a : list A) (i : Z) : M A :=
  if i <? 0 then undefined
  else match a !! Z.to_nat i with
       | Some x => ret x
       | None => undefined
       end.

(** [memcpy(dst, src, n * sizeof *src)] into an [n]-element array. *)
Definition memcpy {A : Type} (src : list A) (n : nat) : M (list A) :=
  if (n <=? length src)%nat then ret (take n src) else undefined.

Section Program.

Variable A : abi.
Variable E : env.

(** A record-sized run of bytes of unspecified value. *)
Definition blank (i : nat) : list byte :=
  map (junk E i) (seq 0 (sizeof_ExportData A)).

(** [time(NULL)]: the next reading of the clock. *)
Definition time : M Z :=
  fun w => Done (clock E (ticks w)) (set_ticks (S (ticks w)) w).

(** [printf("%d %d\n", a, b)]. *)
Definition printf (a b : Z) : M unit :=
  modify (fun w => set_stdout (stdout w ++ [(a, b)]) w).

(** [data[i] = export]. *)
Definition store (data : pointer) (i : Z) (export : ExportData) : M unit :=
  match data with
  | NULL => undefined
  | Block =>
      fun w =>
        if (0 <=? i) && (Z.to_nat i <? length (heap w))%nat
        then Done tt (set_heap (<[Z.to_nat i := Some export]> (heap w)) w)
        else Undefined w
  end.

(** [malloc(size)], [size] a multiple of the record size: a block of
    uninitialised records, or [NULL]. *)
Definition malloc (size : nat) : M pointer :=
  fun w =>
    if malloc_ok E
    then Done Block (set_heap (replicate (size / sizeof_ExportData A) None) w)
    else Done NULL w.

(** [free(data)]; [free(NULL)] does nothing. *)
Definition free (data : pointer) : M unit :=
  match data with
  | NULL => ret tt
  | Block => modify (set_heap [])
  end.

(** [fopen("../data", "w")]: truncates the file, or fails with [NULL]. *)
Definition fopen : M stream :=
  fun w => if fopen_ok E then Done File (set_sink [] w) else Done NULL_stream w.

(** The bytes of record [i] of the block as [fwrite] reads them. *)
Definition object_bytes (i : nat) (cell : option ExportData) : list byte :=
  match cell with
  | Some d => repr_ExportData A (blank i) d
  | None => blank i
  end.

(** What the device takes of the bytes handed to it. *)
Definition accepted (bytes : list byte) : list byte :=
  match sink_room E with
  | None => bytes
  | Some room => take room bytes
  end.

(** [fwrite(data, sizeof(ExportData), nmemb, fp)]: the number of whole
    records written. A null stream, a null buffer, or a buffer shorter
    than [nmemb] records is undefined. *)
Definition fwrite (data : pointer) (nmemb : Z) (fp : stream) : M Z :=
  match data, fp with
  | Block, File =>
      fun w =>
        if (Z.to_nat nmemb <=? length (heap w))%nat then
          let bytes := concat (imap object_bytes (take (Z.to_nat nmemb) (heap w))) in
          Done (Z.of_nat (length (accepted bytes) / sizeof_ExportData A))
               (set_sink (sink w ++ accepted bytes) w)
        else Undefined w
  | _, _ => undefined
  end.

(** ** The generator *)

Definition get_value_struct : M ValueStruct :=
  let* c := get val_counter in
  let* v := array_read float_array c in
  let* t := time in
  let value := mkValueStruct (enum_value VALUE) v t in
  let* c' := int_add c 1 in
  do modify (set_val_counter (Z.rem c' FLOAT_ARRAY_LEN)) then
  ret value.

Definition get_m_value_struct : M MValueStruct :=
  let* t := time in
  let* vals := memcpy float_array 10 in
  ret (mkMValueStruct (enum_value M_VALUE) vals t).

Definition get_message_struct : M MessageStruct :=
  let* c := get string_counter in
  let* row := array_read export_strings c in
  let* msg := memcpy row 21 in
  let message := mkMessageStruct (enum_value MESSAGE) msg in
  let* c' := int_add c 1 in
  do modify (set_string_counter (Z.rem c' EXPORT_STRINGS_LEN)) then
  ret message.

(** The body of the loop of [fill_export_data]. A remainder other than
    0, 1, 2 leaves [export] uninitialised, and reading it is undefined. *)
Definition fill_body (data : pointer) (i : Z) : M unit :=
  let* export :=
            match Z.rem i 3 with
            | 0 => let* v := get_value_struct in
                   ret (mkExportData (enum_value VALUE) (U_val v))
            | 1 => let* m := get_m_value_struct in
                   ret (mkExportData (enum_value M_VALUE) (U_mvals m))
            | 2 => let* m := get_message_struct in
                   ret (mkExportData (enum_value MESSAGE) (U_messages m))
            | _ => undefined
            end in
  do printf i (type export) then
  store data i export.

(** [for (int i = ...; i < len; i++)], [len] a [uint32_t]: the test
    compares after converting [i] to unsigned. [fuel] bounds the number
    of tests; [fill_export_data] passes more than the loop can use. *)
Fixpoint fill_loop (fuel : nat) (data : pointer) (len i : Z) : M unit :=
  match fuel with
  | O => ret tt
  | S fuel' =>
      if to_uint32 i <? len then
        do fill_body data i then
        let* i' := int_add i 1 in
        fill_loop fuel' data len i'
      else ret tt
  end.

Definition fill_export_data (data : pointer) (len : Z) : M unit :=
  fill_loop (S (Z.to_nat len)) data len 0.

(** ** The writer *)

Definition export (data : pointer) (data_len : Z) (fp : stream) : M unit :=
  do fwrite data data_len fp then ret tt.

Definition main : M Z :=
  let* data := malloc (sizeof_ExportData A * Z.to_nat EXPORT_DATA_LEN) in
  do fill_export_data data EXPORT_DATA_LEN then
  let* fp := fopen in
  do export data EXPORT_DATA_LEN fp then
  do free data then
  ret 0.

End Program.

(** ** The generator in closed form

    Record [j] of a run that starts with both counters at [0] and the
    clock at its reading number [t0]. *)

Definition expected_record (E : env) (t0 : nat) (j : Z) : ExportData :=
  let k := j / 3 in
  match j mod 3 with
  | 0 =>
      mkExportData 1
        (U_val (mkValueStruct 1 (nth (Z.to_nat (k mod 10)) float_array 0)
                  (clock E (t0 + Z.to_nat (2 * k)))))
  | 1 =>
      mkExportData 2
        (U_mvals (mkMValueStruct 2 float_array
                    (clock E (t0 + Z.to_nat (2 * k + 1)))))
  | _ =>
      mkExportData 3
        (U_messages (mkMessageStruct 3
                       (nth (Z.to_nat (k mod 7)) export_strings [])))
  end.

(** The loop invariant of [fill_export_data]: [w] is the state reached
    from [w0] once records [0 .. i-1] are stored. *)
Definition generated (E : env) (w0 w : world) (i : Z) : Prop :=
  val_counter w = ((i + 2) / 3) mod 10 /\
  string_counter w = (i / 3) mod 7 /\
  ticks w = (ticks w0 + Z.to_nat ((i + 2) / 3 + (i + 1) / 3))%nat /\
  length (heap w) = length (heap w0) /\
  sink w = sink w0 /\
  forall j, 0 <= j < i ->
    heap w !! Z.to_nat j = Some (Some (expected_record E (ticks w0) j)).

(** A state in which a run may start: the counters as the loader
    leaves them. *)
Definition fresh (w : world) : Prop :=
  val_counter w = 0 /\ string_counter w = 0.

(** [strlen]: the number of bytes before the first zero byte. *)
Fixpoint strlen (s : list byte) : nat :=
  match s with
  | [] => 0
  | b :: s' => if Byte.eqb b x00 then 0 else S (strlen s')
  end.

(** The [type] field of the stored union member. *)
Definition inner_type (d : ExportData) : Z :=
  match member d with
  | U_val v => vs_type v
  | U_mvals m => mvs_type m
  | U_messages m => ms_type m
  end.

(** The [timestamp] field of the stored union member; [MessageStruct]
    has none. *)
Definition timestamp_of (d : ExportData) : option Z :=
  match member d with
  | U_val v => Some (vs_timestamp v)
  | U_mvals m => Some (mvs_timestamp m)
  | U_messages _ => None
  end.

(** Every record of a run of [N] carries a timestamp. *)
Definition all_stamped (E : env) (N : Z) (w0 : world) : Prop :=
  forall w', fill_export_data E Block N w0 = Done tt w' ->
  forall i, 0 <= i < N ->
    exists d t, heap w' !! Z.to_nat i = Some (Some d) /\ timestamp_of d = Some t.

(** The state of a starting process once [malloc] has returned a block
    of [n] records. *)
Definition allocated (n : nat) (old : list byte) : world :=
  set_heap (replicate n None) (initial_world old).

(** A sample environment: a clock that advances by one second at each
    reading, no failure, unspecified bytes all [0xff]. *)
Definition sample_env : env :=
  mkEnv (fun n => 1700000000 + Z.of_nat n) true true None (fun _ _ => xff).

(** ** Reading a dump back *)

(** The value of a run of bytes, least significant first. *)
Fixpoint le_value (bs : list byte) : Z :=
  match bs with
  | [] => 0
  | b :: bs' => Z_of_byte b + 256 * le_value bs'
  end.

Definition decode_uint (a : abi) (bs : list byte) : Z :=
  match order a with
  | LittleEndian => le_value bs
  | BigEndian => le_value (rev bs)
  end.

(** Two's complement. *)
Definition decode_int (a : abi) (bs : list byte) : Z :=
  let u := decode_uint a bs in
  let m := 256 ^ Z.of_nat (length bs) in
  if 2 * u <? m then u else u - m.

(** The [n] bytes at offset [off] of a block. *)
Definition peek (off n : nat) (blk : list byte) : list byte :=
  take n (drop off blk).

Fixpoint decode_floats (a : abi) (n : nat) (bs : list byte) : list float :=
  match n with
  | O => []
  | S n' =>
      decode_uint a (take sizeof_float bs)
        :: decode_floats a n' (drop sizeof_float bs)
  end.

Definition read_ValueStruct (a : abi) (base : nat) (blk : list byte)
    : ValueStruct :=
  let fs := ValueStruct_fields a in
  mkValueStruct
    (decode_int a (peek (base + offsetof fs 0) sizeof_int blk))
    (decode_uint a (peek (base + offsetof fs 1) sizeof_float blk))
    (decode_int a (peek (base + offsetof fs 2) (sizeof_long a) blk)).

Definition read_MValueStruct (a : abi) (base : nat) (blk : list byte)
    : MValueStruct :=
  let fs := MValueStruct_fields a in
  mkMValueStruct
    (decode_int a (peek (base + offsetof fs 0) sizeof_int blk))
    (decode_floats a 10 (peek (base + offsetof fs 1) (10 * sizeof_float) blk))
    (decode_int a (peek (base + offsetof fs 2) (sizeof_long a) blk)).

Definition read_MessageStruct (a : abi) (base : nat) (blk : list byte)
    : MessageStruct :=
  let fs := MessageStruct_fields in
  mkMessageStruct
    (decode_int a (peek (base + offsetof fs 0) sizeof_int blk))
    (peek (base + offsetof fs 1) 21 blk).

(** Modelled from the spec: the reader of the dump is not part of
    lab0/c_src/main.c. A block starts with the discriminant, which
    selects the variant; the payload is read in the layout of that
    variant's struct, in the host's byte order; any other discriminant
    is rejected. *)
Definition read_record (a : abi) (blk : list byte) : option ExportData :=
  let fs := ExportData_fields a in
  let t := decode_int a (peek (offsetof fs 0) sizeof_int blk) in
  let base := offsetof fs 1 in
  if t =? enum_value VALUE then
    Some (mkExportData t (U_val (read_ValueStruct a base blk)))
  else if t =? enum_value M_VALUE then
    Some (mkExportData t (U_mvals (read_MValueStruct a base blk)))
  else if t =? enum_value MESSAGE then
    Some (mkExportData t (U_messages (read_MessageStruct a base blk)))
  else None.

(** Modelled from the spec: the stream is back-to-back blocks of the
    record size with no header, separator or footer; a trailing partial
    block is rejected. [fuel] bounds the number of blocks. *)
Fixpoint read_blocks (fuel : nat) (a : abi) (s : list byte)
    : option (list ExportData) :=
  match s with
  | [] => Some []
  | _ :: _ =>
      match fuel with
      | O => None
      | S fuel' =>
          if (length s <? sizeof_ExportData a)%nat then None
          else
            match read_record a (take (sizeof_ExportData a) s),
                  read_blocks fuel' a (drop (sizeof_ExportData a) s) with
            | Some d, Some ds => Some (d :: ds)
            | _, _ => None
            end
      end
  end.

Definition read_dump (a : abi) (s : list byte) : option (list ExportData) :=
  read_blocks (length s) a s.

(** A record without its timestamp. *)
Definition erase_timestamp (d : ExportData) : ExportData :=
  mkExportData (type d)
    match member d with
    | U_val v => U_val (mkValueStruct (vs_type v) (vs_val v) 0)
    | U_mvals m => U_mvals (mkMValueStruct (mvs_type m) (mvs_val m) 0)
    | U_messages m => U_messages m
    end.

(** A record as it reads back: a [long] holds its timestamp modulo the
    width of [long]. *)
Definition stored_long (a : abi) (t : Z) : Z :=
  decode_int a (encode_int a (sizeof_long a) t).

Definition as_stored (a : abi) (d : ExportData) : ExportData :=
  mkExportData (type d)
    match member d with
    | U_val v =>
        U_val (mkValueStruct (vs_type v) (vs_val v)
                 (stored_long a (vs_timestamp v)))
    | U_mvals m =>
        U_mvals (mkMValueStruct (mvs_type m) (mvs_val m)
                   (stored_long a (mvs_timestamp m)))
    | U_messages m => U_messages m
    end.

(** What the generator guarantees of a record and the layout relies on:
    the discriminant names the stored member, the floats are binary32
    patterns, the arrays have their declared lengths. *)
Definition well_formed (d : ExportData) : Prop :=
  match member d with
  | U_val v => type d = 1 /\ vs_type v = 1 /\ 0 <= vs_val v < 2 ^ 32
  | U_mvals m =>
      type d = 2 /\ mvs_type m = 2 /\ length (mvs_val m) = 10%nat /\
      Forall (fun x => 0 <= x < 2 ^ 32) (mvs_val m)
  | U_messages m =>
      type d = 3 /\ ms_type m = 3 /\ length (ms_message m) = 21%nat
  end.

(** The first [n] records of a run, in closed form. *)
Definition expected_records (E : env) (t0 n : nat) : list ExportData :=
  (fun j => expected_record E t0 (Z.of_nat j)) <$> seq 0 n.

(** The end of a run, in a defined way, with a failure status. The
    program calls neither [exit] nor [abort]: the only defined end of a
    run is a return from [main]. *)
Definition fatal_abort (r : result Z) : Prop :=
  exists code w, r = Done code w /\ code <> 0.

(** Environments in which the allocation, respectively the opening of
    the output file, fails. *)
Definition no_memory_env : env :=
  mkEnv (clock sample_env) false true None (junk sample_env).
Definition no_file_env : env :=
  mkEnv (clock sample_env) true false None (junk sample_env).

Definition sample_abi : abi := mkAbi LP64 LittleEndian.

(** Both failures end the run with a failure status. *)
Definition failures_abort (A : abi) (E : env) (old : list byte) : Prop :=
  (malloc_ok E = false -> fatal_abort (main A E (initial_world old))) /\
  (fopen_ok E = false -> fatal_abort (main A E (initial_world old))).

(** ** Runs from any cursor position

    The counters are [static]: a second call of [fill_export_data] in
    the same process starts where the first one stopped. Record [j] of
    a run that starts with the cursors at [c0] and [s0] and the clock
    at its reading number [t0]. *)
Definition record_from (E : env) (c0 s0 : Z) (t0 : nat) (j : Z) : ExportData :=
  let k := j / 3 in
  match j mod 3 with
  | 0 =>
      mkExportData 1
        (U_val (mkValueStruct 1
                  (nth (Z.to_nat ((c0 + k) mod 10)) float_array 0)
                  (clock E (t0 + Z.to_nat (2 * k)))))
  | 1 =>
      mkExportData 2
        (U_mvals (mkMValueStruct 2 float_array
                    (clock E (t0 + Z.to_nat (2 * k + 1)))))
  | _ =>
      mkExportData 3
        (U_messages (mkMessageStruct 3
                       (nth (Z.to_nat ((s0 + k) mod 7)) export_strings [])))
  end.

(** Both cursors inside their tables. *)
Definition in_range (w : world) : Prop :=
  0 <= val_counter w < 10 /\ 0 <= string_counter w < 7.

(** The lines [printf] writes for records [0 .. n-1]. *)
Definition console_lines (n : nat) : list (Z * Z) :=
  (fun j => (Z.of_nat j, 1 + Z.of_nat j mod 3)) <$> seq 0 n.

(** [w] is the state reached from [w0] once records [0 .. i-1] are
    stored: every component of the state. *)
Definition reached (E : env) (w0 w : world) (i : Z) : Prop :=
  val_counter w = (val_counter w0 + (i + 2) / 3) mod 10 /\
  string_counter w = (string_counter w0 + i / 3) mod 7 /\
  ticks w = (ticks w0 + Z.to_nat ((i + 2) / 3 + (i + 1) / 3))%nat /\
  stdout w = stdout w0 ++ console_lines (Z.to_nat i) /\
  sink w = sink w0 /\
  length (heap w) = length (heap w0) /\
  (forall j, 0 <= j < i ->
     heap w !! Z.to_nat j =
       Some (Some (record_from E (val_counter w0) (string_counter w0)
                     (ticks w0) j))) /\
  (forall j : nat, (Z.to_nat i <= j)%nat -> heap w !! j = heap w0 !! j).

(** A clock that never goes back. *)
Definition monotone (clock : nat -> Z) : Prop :=
  forall m n : nat, (m <= n)%nat -> clock m <= clock n.

(** The whole dump of [main]: the hundred blocks. *)
Definition full_dump (A : abi) (E : env) : list byte :=
  concat (imap (object_bytes A E) (Some <$> expected_records E 0 100)).

(** A device that takes 1000 bytes and no more. *)
Definition small_disk_env : env :=
  mkEnv (clock sample_env) true true (Some 1000%nat) (junk sample_env).

(** A process in which earlier calls left the cursors at 7 and 5, with
    a block of ten records. *)
Definition later_call_world : world :=
  set_val_counter 7 (set_string_counter 5 (allocated 10 [])).




(** * Properties *)

Ltac zdiv := Z.div_mod_to_equations; lia.

Example sizeof_ExportData_LP64 o : sizeof_ExportData (mkAbi LP64 o) = 64%nat.
Proof. reflexivity. Qed.
Example sizeof_ExportData_ILP32 o : sizeof_ExportData (mkAbi ILP32 o) = 52%nat.
Proof. reflexivity. Qed.

Lemma get_value_struct_run E w :
  0 <= val_counter w < 10 ->
  get_value_struct E w =
    Done (mkValueStruct 1 (nth (Z.to_nat (val_counter w)) float_array 0)
            (clock E (ticks w)))
         (set_val_counter ((val_counter w + 1) mod 10)
            (set_ticks (S (ticks w)) w)).
Proof.
  destruct w as [c s t o h k]; cbn [val_counter ticks]; intros Hc.
  assert (Hcases : c = 0 \/ c = 1 \/ c = 2 \/ c = 3 \/ c = 4 \/ c = 5 \/
                   c = 6 \/ c = 7 \/ c = 8 \/ c = 9) by lia.
  repeat (destruct Hcases as [-> | Hcases]); try subst c; reflexivity.
Qed.

Lemma get_m_value_struct_run E w :
  get_m_value_struct E w =
    Done (mkMValueStruct 2 float_array (clock E (ticks w)))
         (set_ticks (S (ticks w)) w).
Proof. reflexivity. Qed.

Lemma get_message_struct_run w :
  0 <= string_counter w < 7 ->
  get_message_struct w =
    Done (mkMessageStruct 3 (nth (Z.to_nat (string_counter w)) export_strings []))
         (set_string_counter ((string_counter w + 1) mod 7) w).
Proof.
  destruct w as [c s t o h k]; cbn [string_counter]; intros Hs.
  assert (Hcases : s = 0 \/ s = 1 \/ s = 2 \/ s = 3 \/ s = 4 \/ s = 5 \/ s = 6)
    by lia.
  repeat (destruct Hcases as [-> | Hcases]); try subst s; reflexivity.
Qed.

Lemma store_run w i d :
  0 <= i -> (Z.to_nat i < length (heap w))%nat ->
  store Block i d w =
    Done tt (set_heap (<[Z.to_nat i := Some d]> (heap w)) w).
Proof.
  intros Hi Hlt. unfold store.
  replace (0 <=? i) with true by (symmetry; apply Z.leb_le; lia).
  replace (Z.to_nat i <? length (heap w))%nat with true
    by (symmetry; apply Nat.ltb_lt; lia).
  reflexivity.
Qed.

Lemma expected_record_type E t0 j :
  0 <= j -> type (expected_record E t0 j) = 1 + j mod 3.
Proof.
  intros Hj. unfold expected_record.
  assert (Hr : j mod 3 = 0 \/ j mod 3 = 1 \/ j mod 3 = 2) by zdiv.
  destruct Hr as [-> | [-> | ->]]; reflexivity.
Qed.

Lemma fill_body_step E w0 i w :
  0 <= i -> (Z.to_nat i < length (heap w0))%nat ->
  generated E w0 w i ->
  exists w', fill_body E Block i w = Done tt w' /\ generated E w0 w' (i + 1).
Proof.
  intros Hi Hlen (Hv & Hs & Ht & Hl & Hk & Hh).
  assert (Hvr : 0 <= val_counter w < 10) by (rewrite Hv; zdiv).
  assert (Hsr : 0 <= string_counter w < 7) by (rewrite Hs; zdiv).
  assert (Hr : i mod 3 = 0 \/ i mod 3 = 1 \/ i mod 3 = 2) by zdiv.
  unfold fill_body, bind. rewrite Z.rem_mod_nonneg by lia.
  destruct Hr as [Hr | [Hr | Hr]]; rewrite Hr.
  - assert (Hexp : expected_record E (ticks w0) i =
        mkExportData 1 (U_val (mkValueStruct 1
          (nth (Z.to_nat (val_counter w)) float_array 0) (clock E (ticks w))))).
    { unfold expected_record. rewrite Hr. do 3 f_equal.
      - do 2 f_equal. rewrite Hv. zdiv.
      - f_equal. rewrite Ht. zdiv. }
    rewrite get_value_struct_run by assumption.
    unfold ret, printf, modify. rewrite store_run by (cbn; lia).
    eexists; split; [reflexivity |].
    repeat split; cbn.
    + rewrite Hv. zdiv.
    + rewrite Hs. zdiv.
    + rewrite Ht. zdiv.
    + rewrite length_insert. exact Hl.
    + exact Hk.
    + intros j Hj. destruct (Z.eq_dec j i) as [-> | Hne].
      * rewrite list_lookup_insert_eq by lia.
        rewrite Hexp. reflexivity.
      * rewrite list_lookup_insert_ne by lia. apply Hh. lia.
  - assert (Hexp : expected_record E (ticks w0) i =
        mkExportData 2 (U_mvals (mkMValueStruct 2 float_array
                                   (clock E (ticks w))))).
    { unfold expected_record. rewrite Hr. do 4 f_equal. rewrite Ht. zdiv. }
    rewrite get_m_value_struct_run.
    unfold ret, printf, modify. rewrite store_run by (cbn; lia).
    eexists; split; [reflexivity |].
    repeat split; cbn.
    + rewrite Hv. zdiv.
    + rewrite Hs. zdiv.
    + rewrite Ht. zdiv.
    + rewrite length_insert. exact Hl.
    + exact Hk.
    + intros j Hj. destruct (Z.eq_dec j i) as [-> | Hne].
      * rewrite list_lookup_insert_eq by lia.
        rewrite Hexp. reflexivity.
      * rewrite list_lookup_insert_ne by lia. apply Hh. lia.
  - assert (Hexp : expected_record E (ticks w0) i =
        mkExportData 3 (U_messages (mkMessageStruct 3
          (nth (Z.to_nat (string_counter w)) export_strings [])))).
    { unfold expected_record. rewrite Hr. do 5 f_equal. rewrite Hs. zdiv. }
    rewrite get_message_struct_run by assumption.
    unfold ret, printf, modify. rewrite store_run by (cbn; lia).
    eexists; split; [reflexivity |].
    repeat split; cbn.
    + rewrite Hv. zdiv.
    + rewrite Hs. zdiv.
    + rewrite Ht. zdiv.
    + rewrite length_insert. exact Hl.
    + exact Hk.
    + intros j Hj. destruct (Z.eq_dec j i) as [-> | Hne].
      * rewrite list_lookup_insert_eq by lia.
        rewrite Hexp. reflexivity.
      * rewrite list_lookup_insert_ne by lia. apply Hh. lia.
Qed.

Lemma to_uint32_small i : 0 <= i <= INT_MAX -> to_uint32 i = i.
Proof. unfold to_uint32, INT_MAX. intros Hi. apply Z.mod_small. lia. Qed.

Lemma int_add_run a b w :
  INT_MIN <= a + b <= INT_MAX -> int_add a b w = Done (a + b) w.
Proof.
  intros H. unfold int_add.
  replace (INT_MIN <=? a + b) with true by (symmetry; apply Z.leb_le; lia).
  replace (a + b <=? INT_MAX) with true by (symmetry; apply Z.leb_le; lia).
  reflexivity.
Qed.

Lemma fill_loop_run E w0 len :
  len <= INT_MAX -> (Z.to_nat len <= length (heap w0))%nat ->
  forall fuel i w,
    0 <= i <= len -> (Z.to_nat (len - i) < fuel)%nat ->
    generated E w0 w i ->
    exists w', fill_loop E fuel Block len i w = Done tt w' /\
               generated E w0 w' len.
Proof.
  intros Hmax Hbuf fuel.
  induction fuel as [| fuel IH]; intros i w Hi Hfuel Hgen; [lia |].
  cbn [fill_loop]. rewrite to_uint32_small by lia.
  destruct (Z.ltb_spec i len) as [Hlt | Hge].
  - destruct (fill_body_step E w0 i w) as (w1 & Hbody & Hgen1);
      [lia | lia | assumption |].
    unfold bind. rewrite Hbody.
    rewrite int_add_run by (unfold INT_MIN; lia).
    apply IH; [lia | lia | assumption].
  - assert (i = len) as -> by lia.
    exists w. split; [reflexivity | assumption].
Qed.

Lemma generated_start E w : fresh w -> generated E w w 0.
Proof.
  intros [Hv Hs]. unfold generated. rewrite Hv, Hs.
  repeat split; try reflexivity.
  - zdiv.
  - intros j Hj. lia.
Qed.

(** A run of [fill_export_data] over a buffer of at least [N] records
    returns, and leaves record [j] as the closed form describes it. *)
Lemma fill_export_data_run E N w0 :
  fresh w0 -> 0 <= N <= INT_MAX -> (Z.to_nat N <= length (heap w0))%nat ->
  exists w', fill_export_data E Block N w0 = Done tt w' /\
             generated E w0 w' N.
Proof.
  intros Hfresh HN Hbuf. unfold fill_export_data.
  apply fill_loop_run; try lia; try assumption.
  apply generated_start; assumption.
Qed.

(** The result does not depend on the fuel once there is enough. *)
Lemma fill_loop_fuel E data len :
  forall fuel1 fuel2 i w,
    0 <= i <= INT_MAX ->
    (Z.to_nat (len - i) < fuel1)%nat -> (Z.to_nat (len - i) < fuel2)%nat ->
    fill_loop E fuel1 data len i w = fill_loop E fuel2 data len i w.
Proof.
  induction fuel1 as [| fuel1 IH]; intros fuel2 i w Hi H1 H2; [lia |].
  destruct fuel2 as [| fuel2]; [lia |].
  cbn [fill_loop]. rewrite to_uint32_small by lia.
  destruct (Z.ltb_spec i len) as [Hlt | Hge]; [| reflexivity].
  unfold bind. destruct (fill_body E data i w) as [[] w1 | w1]; [| reflexivity].
  unfold int_add.
  destruct ((INT_MIN <=? i + 1) && (i + 1 <=? INT_MAX)) eqn:Hov;
    [| reflexivity].
  apply andb_prop in Hov as [_ Hle%Z.leb_le].
  unfold ret. apply IH; lia.
Qed.

(** The bound on [N] is the range of [int i]: with more than
    [INT_MAX] records to produce, [i++] overflows after record
    [INT_MAX], which is undefined. *)
Lemma fill_loop_overflow E w0 len :
  INT_MAX < len -> (Z.to_nat INT_MAX < length (heap w0))%nat ->
  forall fuel i w,
    0 <= i <= INT_MAX -> (Z.to_nat (INT_MAX - i) < fuel)%nat ->
    generated E w0 w i ->
    exists w', fill_loop E fuel Block len i w = Undefined w'.
Proof.
  intros Hlen Hbuf fuel.
  induction fuel as [| fuel IH]; intros i w Hi Hfuel Hgen; [lia |].
  cbn [fill_loop]. rewrite to_uint32_small by lia.
  destruct (Z.ltb_spec i len) as [_ | Hge]; [| lia].
  destruct (fill_body_step E w0 i w) as (w1 & Hbody & Hgen1);
    [lia | lia | assumption |].
  unfold bind. rewrite Hbody.
  destruct (Z.eq_dec i INT_MAX) as [-> | Hne].
  - exists w1. reflexivity.
  - rewrite int_add_run by (unfold INT_MIN; lia).
    apply IH; [lia | lia | assumption].
Qed.

Lemma fill_export_data_overflow E N w0 :
  fresh w0 -> INT_MAX < N -> (Z.to_nat INT_MAX < length (heap w0))%nat ->
  exists w', fill_export_data E Block N w0 = Undefined w'.
Proof.
  intros Hfresh HN Hbuf. unfold fill_export_data.
  apply (fill_loop_overflow E w0 N HN Hbuf); [unfold INT_MAX; lia | lia |].
  apply generated_start; assumption.
Qed.

(** ** Scenarios *)

Example run_of_3 :
  exists w, fill_export_data sample_env Block 3 (allocated 3 []) = Done tt w /\
    heap w =
      [ Some (mkExportData 1 (U_val (mkValueStruct 1 0x3f800000 1700000000)));
        Some (mkExportData 2 (U_mvals (mkMValueStruct 2 float_array 1700000001)));
        Some (mkExportData 3 (U_messages
                (mkMessageStruct 3 (char_array 21 "Bella")))) ].
Proof. eexists. split; reflexivity. Qed.

Example run_of_0 :
  fill_export_data sample_env Block 0 (allocated 0 []) = Done tt (allocated 0 []).
Proof. reflexivity. Qed.

Example run_of_100_wraps :
  exists w, fill_export_data sample_env Block 100 (allocated 100 []) = Done tt w /\
    heap w !! 27%nat =
      Some (Some (mkExportData 1 (U_val (mkValueStruct 1 0x41200000 1700000018)))) /\
    heap w !! 30%nat =
      Some (Some (mkExportData 1 (U_val (mkValueStruct 1 0x3f800000 1700000020)))) /\
    val_counter w = 4 /\ string_counter w = 5.
Proof. eexists. split; [vm_compute; reflexivity |]. repeat split. Qed.

Example main_writes_6400_bytes :
  exists w, main sample_abi sample_env (initial_world []) = Done 0 w /\
            length (sink w) = (100 * 64)%nat.
Proof. eexists. split; [vm_compute; reflexivity |]. reflexivity. Qed.

Lemma float_array_lookup n :
  (n < 10)%nat -> float_array !! n = Some (nth n float_array 0).
Proof.
  intros Hn. destruct (nth_lookup_or_length float_array n 0) as [H | H];
    [exact H | cbn in H; lia].
Qed.

Lemma export_strings_lookup n :
  (n < 7)%nat -> export_strings !! n = Some (nth n export_strings []).
Proof.
  intros Hn. destruct (nth_lookup_or_length export_strings n []) as [H | H];
    [exact H | cbn in H; lia].
Qed.

(** ** Runs of the generator

    A run of [fill_export_data] for [N] records, [N] in the range of
    the loop index, from a fresh state [w0] whose block holds at least
    [N] records. *)

Section Run.

Variable E : env.
Variable N : Z.
Variable w0 : world.
Hypothesis run_fresh : fresh w0.
Hypothesis run_length : 0 <= N <= INT_MAX.
Hypothesis run_buffer : (Z.to_nat N <= length (heap w0))%nat.

(** *** The record kinds *)

(** C1. In a run of [N] records, record [i] has discriminant 1 (Scalar)
    when [i mod 3 = 0], 2 (Vector) when [i mod 3 = 1] and 3 (Message)
    when [i mod 3 = 2]. *)
Theorem discriminant_follows_index :
  exists w', fill_export_data E Block N w0 = Done tt w' /\
    forall i, 0 <= i < N ->
      exists d, heap w' !! Z.to_nat i = Some (Some d) /\
        (i mod 3 = 0 -> type d = 1) /\
        (i mod 3 = 1 -> type d = 2) /\
        (i mod 3 = 2 -> type d = 3).
Proof.
  destruct (fill_export_data_run E N w0) as (w' & Hrun & Hgen); try assumption.
  exists w'. split; [exact Hrun |].
  intros i Hi. destruct Hgen as (_ & _ & _ & _ & _ & Hh).
  exists (expected_record E (ticks w0) i). split; [apply Hh; lia |].
  rewrite expected_record_type by lia. lia.
Qed.

(** *** The two table cursors *)

(** C3. The float cursor moves by one, modulo 10, in [get_value_struct]
    and is left alone by [get_m_value_struct] and [get_message_struct];
    after a run of [N] records it has moved once per Scalar record, and
    the [k]-th Scalar record (record [3k]) carries
    [float_array[k mod 10]]. *)
Theorem float_cursor_once_per_scalar :
  (forall w, 0 <= val_counter w < 10 ->
     exists v w', get_value_struct E w = Done v w' /\
       val_counter w' = (val_counter w + 1) mod 10) /\
  (forall w, exists m w', get_m_value_struct E w = Done m w' /\
       val_counter w' = val_counter w) /\
  (forall w, 0 <= string_counter w < 7 ->
     exists m w', get_message_struct w = Done m w' /\
       val_counter w' = val_counter w) /\
  exists w', fill_export_data E Block N w0 = Done tt w' /\
    val_counter w' = ((N + 2) / 3) mod 10 /\
    forall k, 0 <= k -> 3 * k < N ->
      exists v, heap w' !! Z.to_nat (3 * k) =
                  Some (Some (mkExportData 1 (U_val v))) /\
        float_array !! Z.to_nat (k mod 10) = Some (vs_val v).
Proof.
  repeat split.
  - intros w Hw. rewrite get_value_struct_run by assumption.
    eexists; eexists; split; reflexivity.
  - intros w. rewrite get_m_value_struct_run.
    eexists; eexists; split; reflexivity.
  - intros w Hw. rewrite get_message_struct_run by assumption.
    eexists; eexists; split; reflexivity.
  - destruct (fill_export_data_run E N w0) as (w' & Hrun & Hgen);
      try assumption.
    exists w'. destruct Hgen as (Hv & _ & _ & _ & _ & Hh).
    repeat split; [exact Hrun | exact Hv |].
    intros k Hk HkN. rewrite Hh by lia. unfold expected_record.
    replace ((3 * k) mod 3) with 0 by zdiv.
    replace (3 * k / 3) with k by zdiv.
    eexists; split; [reflexivity |]. cbn [vs_val].
    apply float_array_lookup. zdiv.
Qed.

(** C4. The string cursor moves by one, modulo 7, in
    [get_message_struct] and is left alone by the other two
    constructors; after a run of [N] records it has moved once per
    Message record, and the [k]-th Message record (record [3k+2])
    carries [export_strings[k mod 7]]. *)
Theorem string_cursor_once_per_message :
  (forall w, 0 <= string_counter w < 7 ->
     exists m w', get_message_struct w = Done m w' /\
       string_counter w' = (string_counter w + 1) mod 7) /\
  (forall w, 0 <= val_counter w < 10 ->
     exists v w', get_value_struct E w = Done v w' /\
       string_counter w' = string_counter w) /\
  (forall w, exists m w', get_m_value_struct E w = Done m w' /\
       string_counter w' = string_counter w) /\
  exists w', fill_export_data E Block N w0 = Done tt w' /\
    string_counter w' = (N / 3) mod 7 /\
    forall k, 0 <= k -> 3 * k + 2 < N ->
      exists m, heap w' !! Z.to_nat (3 * k + 2) =
                  Some (Some (mkExportData 3 (U_messages m))) /\
        export_strings !! Z.to_nat (k mod 7) = Some (ms_message m).
Proof.
  repeat split.
  - intros w Hw. rewrite get_message_struct_run by assumption.
    eexists; eexists; split; reflexivity.
  - intros w Hw. rewrite get_value_struct_run by assumption.
    eexists; eexists; split; reflexivity.
  - intros w. rewrite get_m_value_struct_run.
    eexists; eexists; split; reflexivity.
  - destruct (fill_export_data_run E N w0) as (w' & Hrun & Hgen);
      try assumption.
    exists w'. destruct Hgen as (_ & Hs & _ & _ & _ & Hh).
    repeat split; [exact Hrun | exact Hs |].
    intros k Hk HkN. rewrite Hh by lia. unfold expected_record.
    replace ((3 * k + 2) mod 3) with 2 by zdiv.
    replace ((3 * k + 2) / 3) with k by zdiv.
    eexists; split; [reflexivity |]. cbn [ms_message].
    apply export_strings_lookup. zdiv.
Qed.

(** C5. A Vector record holds the ten values of [float_array] in table
    order: [get_m_value_struct] returns them from any state, whatever
    the float cursor, and so does every record [3k+1] of a run. *)
Theorem vector_payload_is_float_table :
  (forall w, exists m w', get_m_value_struct E w = Done m w' /\
       mvs_val m = float_array) /\
  exists w', fill_export_data E Block N w0 = Done tt w' /\
    forall i, 0 <= i < N -> i mod 3 = 1 ->
      exists m, heap w' !! Z.to_nat i =
                  Some (Some (mkExportData 2 (U_mvals m))) /\
        mvs_val m = float_array /\ length (mvs_val m) = 10%nat.
Proof.
  split.
  - intros w. rewrite get_m_value_struct_run.
    eexists; eexists; split; reflexivity.
  - destruct (fill_export_data_run E N w0) as (w' & Hrun & Hgen);
      try assumption.
    exists w'. destruct Hgen as (_ & _ & _ & _ & _ & Hh).
    split; [exact Hrun |].
    intros i Hi Hr. rewrite Hh by lia. unfold expected_record. rewrite Hr.
    eexists; repeat split.
Qed.

(** *** Message buffers *)

Lemma export_strings_terminated :
  Forall (fun s : list byte =>
            length s = 21%nat /\ (strlen s <= 20)%nat /\
            drop (strlen s) s = replicate (21 - strlen s) x00)
         export_strings.
Proof. repeat constructor. Qed.

(** C9. The buffer of every Message record has 21 bytes, holds a zero
    byte among the first 21 (at most 20 characters before it), and is
    zero from that terminator to its end. *)
Theorem message_buffer_terminated_and_padded :
  exists w', fill_export_data E Block N w0 = Done tt w' /\
    forall i, 0 <= i < N -> i mod 3 = 2 ->
      exists m, heap w' !! Z.to_nat i =
                  Some (Some (mkExportData 3 (U_messages m))) /\
        length (ms_message m) = 21%nat /\
        (strlen (ms_message m) <= 20)%nat /\
        forall j, (strlen (ms_message m) <= j < 21)%nat ->
          ms_message m !! j = Some x00.
Proof.
  destruct (fill_export_data_run E N w0) as (w' & Hrun & Hgen); try assumption.
  exists w'. destruct Hgen as (_ & _ & _ & _ & _ & Hh).
  split; [exact Hrun |].
  intros i Hi Hr. rewrite Hh by lia. unfold expected_record. rewrite Hr.
  eexists; split; [reflexivity |]. cbn [ms_message].
  set (n := Z.to_nat ((i / 3) mod 7)).
  assert (Hn : (n < 7)%nat) by (subst n; zdiv).
  pose proof (export_strings_lookup n Hn) as Hlk.
  pose proof (proj1 (Forall_lookup _ _) export_strings_terminated n _ Hlk)
    as (Hlen & Hstr & Hpad).
  repeat split; try assumption.
  intros j Hj.
  replace j with (strlen (nth n export_strings []) + (j - strlen (nth n export_strings [])))%nat
    by lia.
  rewrite <- lookup_drop, Hpad. apply lookup_replicate_2. lia.
Qed.

(** *** The two discriminants *)

(** C10. In every record of a run the outer [type] equals the [type]
    stored in the union member: 1 with a [ValueStruct], 2 with an
    [MValueStruct], 3 with a [MessageStruct]. *)
Theorem outer_and_inner_type_agree :
  exists w', fill_export_data E Block N w0 = Done tt w' /\
    forall i, 0 <= i < N ->
      exists d, heap w' !! Z.to_nat i = Some (Some d) /\
        type d = inner_type d /\
        match member d with
        | U_val _ => type d = 1
        | U_mvals _ => type d = 2
        | U_messages _ => type d = 3
        end.
Proof.
  destruct (fill_export_data_run E N w0) as (w' & Hrun & Hgen); try assumption.
  exists w'. destruct Hgen as (_ & _ & _ & _ & _ & Hh).
  split; [exact Hrun |].
  intros i Hi. rewrite Hh by lia. eexists; split; [reflexivity |].
  unfold expected_record.
  assert (Hr : i mod 3 = 0 \/ i mod 3 = 1 \/ i mod 3 = 2) by zdiv.
  destruct Hr as [-> | [-> | ->]]; split; reflexivity.
Qed.

(** *** Timestamps *)

(** C7, amended. [get_value_struct] and [get_m_value_struct] each read
    the clock once and store that reading; [get_message_struct] does
    not read the clock. In a run, record [3k] carries the reading
    number [2k] and record [3k+1] the reading number [2k+1], counted
    from the start of the run; a Message record has no timestamp. *)
Theorem scalar_and_vector_stamped :
  (forall w, 0 <= val_counter w < 10 ->
     exists v w', get_value_struct E w = Done v w' /\
       vs_timestamp v = clock E (ticks w) /\ ticks w' = S (ticks w)) /\
  (forall w, exists m w', get_m_value_struct E w = Done m w' /\
       mvs_timestamp m = clock E (ticks w) /\ ticks w' = S (ticks w)) /\
  (forall w, 0 <= string_counter w < 7 ->
     exists m w', get_message_struct w = Done m w' /\ ticks w' = ticks w) /\
  exists w', fill_export_data E Block N w0 = Done tt w' /\
    ticks w' = (ticks w0 + Z.to_nat ((N + 2) / 3 + (N + 1) / 3))%nat /\
    forall i, 0 <= i < N ->
      exists d, heap w' !! Z.to_nat i = Some (Some d) /\
        (i mod 3 = 0 ->
           timestamp_of d = Some (clock E (ticks w0 + Z.to_nat (2 * (i / 3))))) /\
        (i mod 3 = 1 ->
           timestamp_of d =
             Some (clock E (ticks w0 + Z.to_nat (2 * (i / 3) + 1)))) /\
        (i mod 3 = 2 -> timestamp_of d = None).
Proof.
  repeat split.
  - intros w Hw. rewrite get_value_struct_run by assumption.
    eexists; eexists; repeat split.
  - intros w. rewrite get_m_value_struct_run.
    eexists; eexists; repeat split.
  - intros w Hw. rewrite get_message_struct_run by assumption.
    eexists; eexists; repeat split.
  - destruct (fill_export_data_run E N w0) as (w' & Hrun & Hgen);
      try assumption.
    exists w'. destruct Hgen as (_ & _ & Ht & _ & _ & Hh).
    repeat split; [exact Hrun | exact Ht |].
    intros i Hi. rewrite Hh by lia. eexists; split; [reflexivity |].
    unfold expected_record.
    assert (Hr : i mod 3 = 0 \/ i mod 3 = 1 \/ i mod 3 = 2) by zdiv.
    destruct Hr as [Hr | [Hr | Hr]]; rewrite Hr;
      repeat split; intros; try reflexivity; lia.
Qed.

End Run.

(** *** At the hundred records of [main], and at a run of three *)

Lemma discriminant_follows_index_witness :
  exists w', fill_export_data sample_env Block 100 (allocated 100 []) = Done tt w' /\
    forall i, 0 <= i < 100 ->
      exists d, heap w' !! Z.to_nat i = Some (Some d) /\
        (i mod 3 = 0 -> type d = 1) /\
        (i mod 3 = 1 -> type d = 2) /\
        (i mod 3 = 2 -> type d = 3).
Proof.
  apply (discriminant_follows_index sample_env 100 (allocated 100 [])).
  - split; reflexivity.
  - unfold INT_MAX. lia.
  - cbn. lia.
Defined.

Lemma float_cursor_once_per_scalar_witness :
  exists w', fill_export_data sample_env Block 100 (allocated 100 []) = Done tt w' /\
    val_counter w' = ((100 + 2) / 3) mod 10 /\
    forall k, 0 <= k -> 3 * k < 100 ->
      exists v, heap w' !! Z.to_nat (3 * k) =
                  Some (Some (mkExportData 1 (U_val v))) /\
        float_array !! Z.to_nat (k mod 10) = Some (vs_val v).
Proof.
  apply (float_cursor_once_per_scalar sample_env 100 (allocated 100 [])).
  - split; reflexivity.
  - unfold INT_MAX. lia.
  - cbn. lia.
Defined.

Lemma string_cursor_once_per_message_witness :
  exists w', fill_export_data sample_env Block 100 (allocated 100 []) = Done tt w' /\
    string_counter w' = (100 / 3) mod 7 /\
    forall k, 0 <= k -> 3 * k + 2 < 100 ->
      exists m, heap w' !! Z.to_nat (3 * k + 2) =
                  Some (Some (mkExportData 3 (U_messages m))) /\
        export_strings !! Z.to_nat (k mod 7) = Some (ms_message m).
Proof.
  apply (string_cursor_once_per_message sample_env 100 (allocated 100 [])).
  - split; reflexivity.
  - unfold INT_MAX. lia.
  - cbn. lia.
Defined.

Lemma vector_payload_is_float_table_witness :
  exists w', fill_export_data sample_env Block 100 (allocated 100 []) = Done tt w' /\
    forall i, 0 <= i < 100 -> i mod 3 = 1 ->
      exists m, heap w' !! Z.to_nat i =
                  Some (Some (mkExportData 2 (U_mvals m))) /\
        mvs_val m = float_array /\ length (mvs_val m) = 10%nat.
Proof.
  apply (vector_payload_is_float_table sample_env 100 (allocated 100 [])).
  - split; reflexivity.
  - unfold INT_MAX. lia.
  - cbn. lia.
Defined.

Lemma message_buffer_terminated_and_padded_witness :
  exists w', fill_export_data sample_env Block 100 (allocated 100 []) = Done tt w' /\
    forall i, 0 <= i < 100 -> i mod 3 = 2 ->
      exists m, heap w' !! Z.to_nat i =
                  Some (Some (mkExportData 3 (U_messages m))) /\
        length (ms_message m) = 21%nat /\
        (strlen (ms_message m) <= 20)%nat /\
        forall j, (strlen (ms_message m) <= j < 21)%nat ->
          ms_message m !! j = Some x00.
Proof.
  apply (message_buffer_terminated_and_padded sample_env 100 (allocated 100 [])).
  - split; reflexivity.
  - unfold INT_MAX. lia.
  - cbn. lia.
Defined.

Lemma outer_and_inner_type_agree_witness :
  exists w', fill_export_data sample_env Block 100 (allocated 100 []) = Done tt w' /\
    forall i, 0 <= i < 100 ->
      exists d, heap w' !! Z.to_nat i = Some (Some d) /\
        type d = inner_type d /\
        match member d with
        | U_val _ => type d = 1
        | U_mvals _ => type d = 2
        | U_messages _ => type d = 3
        end.
Proof.
  apply (outer_and_inner_type_agree sample_env 100 (allocated 100 [])).
  - split; reflexivity.
  - unfold INT_MAX. lia.
  - cbn. lia.
Defined.

(** C7, refuted as stated. In a run of three records, record 2 is a
    Message record and carries no timestamp. *)
Lemma message_record_not_stamped :
  ~ all_stamped sample_env 3 (allocated 3 []).
Proof.
  intros H.
  destruct (H _ eq_refl 2 ltac:(lia)) as (d & t & Hd & Ht).
  vm_compute in Hd. injection Hd as <-. discriminate Ht.
Qed.

Lemma scalar_and_vector_stamped_witness :
  exists w', fill_export_data sample_env Block 100 (allocated 100 []) = Done tt w' /\
    ticks w' = (ticks (allocated 100 []) + Z.to_nat ((100 + 2) / 3 + (100 + 1) / 3))%nat /\
    forall i, 0 <= i < 100 ->
      exists d, heap w' !! Z.to_nat i = Some (Some d) /\
        (i mod 3 = 0 ->
           timestamp_of d =
             Some (clock sample_env (ticks (allocated 100 []) + Z.to_nat (2 * (i / 3))))) /\
        (i mod 3 = 1 ->
           timestamp_of d =
             Some (clock sample_env (ticks (allocated 100 []) + Z.to_nat (2 * (i / 3) + 1)))) /\
        (i mod 3 = 2 -> timestamp_of d = None).
Proof.
  apply (scalar_and_vector_stamped sample_env 100 (allocated 100 [])).
  - split; reflexivity.
  - unfold INT_MAX. lia.
  - cbn. lia.
Defined.

(** ** Bytes, integers and blocks *)

Lemma Z_of_byte_of_Z z : Z_of_byte (byte_of_Z z) = z mod 256.
Proof.
  unfold Z_of_byte, byte_of_Z.
  assert (Hr : 0 <= z mod 256 < 256) by zdiv.
  destruct (Byte.of_N (Z.to_N (z mod 256))) as [b |] eqn:Hb.
  - apply Byte.to_of_N in Hb. rewrite Hb. lia.
  - apply Byte.of_N_None_iff in Hb. lia.
Qed.

Lemma length_le_bytes n v : length (le_bytes n v) = n.
Proof. revert v. induction n as [| n IH]; intros v; cbn; [| rewrite IH]; reflexivity. Qed.

Lemma length_encode_int a n v : length (encode_int a n v) = n.
Proof.
  unfold encode_int. destruct (order a);
    [| rewrite length_rev]; apply length_le_bytes.
Qed.

Lemma le_value_le_bytes n v : le_value (le_bytes n v) = v mod 256 ^ Z.of_nat n.
Proof.
  revert v. induction n as [| n IH]; intros v.
  - cbn. symmetry. apply Z.mod_1_r.
  - cbn [le_bytes le_value]. rewrite Z_of_byte_of_Z, IH.
    rewrite Nat2Z.inj_succ, Z.pow_succ_r by lia.
    rewrite Z.rem_mul_r by lia. reflexivity.
Qed.

Lemma decode_encode_uint a n v :
  decode_uint a (encode_int a n v) = v mod 256 ^ Z.of_nat n.
Proof.
  unfold decode_uint, encode_int. destruct (order a);
    [| rewrite rev_involutive]; apply le_value_le_bytes.
Qed.

Lemma decode_encode_float a v :
  0 <= v < 2 ^ 32 -> decode_uint a (encode_int a sizeof_float v) = v.
Proof.
  intros Hv. rewrite decode_encode_uint. apply Z.mod_small.
  change (256 ^ Z.of_nat sizeof_float) with (2 ^ 32). exact Hv.
Qed.

Lemma decode_encode_type a v :
  0 <= v <= 3 -> decode_int a (encode_int a sizeof_int v) = v.
Proof.
  intros Hv. unfold decode_int.
  rewrite decode_encode_uint, length_encode_int.
  change (256 ^ Z.of_nat sizeof_int) with 4294967296.
  rewrite Z.mod_small by lia.
  destruct (Z.ltb_spec (2 * v) 4294967296); [reflexivity | lia].
Qed.

Lemma length_poke off bs blk :
  (off + length bs <= length blk)%nat -> length (poke off bs blk) = length blk.
Proof.
  intros H. unfold poke.
  rewrite !length_app, length_take, length_drop. lia.
Qed.

Lemma peek_poke_same off bs blk :
  (off + length bs <= length blk)%nat ->
  peek off (length bs) (poke off bs blk) = bs.
Proof.
  intros H. unfold peek, poke.
  rewrite drop_app_length' by (rewrite length_take; lia).
  apply take_app_length.
Qed.

Lemma peek_poke_other off bs blk off' n :
  (off + length bs <= length blk)%nat ->
  (off' + n <= off)%nat \/ (off + length bs <= off')%nat ->
  peek off' n (poke off bs blk) = peek off' n blk.
Proof.
  intros H Hdisj. unfold peek, poke. destruct Hdisj as [Hbefore | Hafter].
  - rewrite drop_app_le by (rewrite length_take; lia).
    rewrite take_app_le by (rewrite length_drop, length_take; lia).
    rewrite <- (take_drop off blk) at 2.
    rewrite drop_app_le by (rewrite length_take; lia).
    rewrite take_app_le by (rewrite length_drop, length_take; lia).
    reflexivity.
  - rewrite app_assoc.
    rewrite drop_app_ge by (rewrite length_app, length_take; lia).
    rewrite length_app, length_take, drop_drop.
    do 2 f_equal. lia.
Qed.

Lemma peek_poke_same' off n bs blk :
  n = length bs -> (off + n <= length blk)%nat ->
  peek off n (poke off bs blk) = bs.
Proof. intros -> H. apply peek_poke_same. exact H. Qed.

Lemma length_concat_encode a n vs :
  length (concat (map (encode_int a n) vs)) = (n * length vs)%nat.
Proof.
  induction vs as [| v vs IH]; cbn [map concat length]; [lia |].
  rewrite length_app, length_encode_int, IH. lia.
Qed.

Lemma decode_floats_encode a vs :
  Forall (fun x => 0 <= x < 2 ^ 32) vs ->
  decode_floats a (length vs) (concat (map (encode_int a sizeof_float) vs)) = vs.
Proof.
  induction 1 as [| v vs Hv _ IH]; [reflexivity |].
  cbn [map concat length decode_floats].
  rewrite take_app_length' by (rewrite length_encode_int; reflexivity).
  rewrite drop_app_length' by (rewrite length_encode_int; reflexivity).
  rewrite decode_encode_float by exact Hv. rewrite IH. reflexivity.
Qed.

(** Sizes and offsets are closed terms once the data model is known. *)
Ltac layout :=
  repeat match goal with
  | |- context [offsetof ?fs ?k] =>
      let v := eval vm_compute in (offsetof fs k) in
      change (offsetof fs k) with v
  | |- context [sizeof_long ?a] =>
      let v := eval vm_compute in (sizeof_long a) in
      change (sizeof_long a) with v
  | |- context [sizeof_ExportData ?a] =>
      let v := eval vm_compute in (sizeof_ExportData a) in
      change (sizeof_ExportData a) with v
  end;
  change sizeof_int with 4%nat in *; change sizeof_float with 4%nat in *.

Ltac block_len :=
  repeat first
    [ rewrite length_encode_int
    | rewrite length_concat_encode
    | match goal with H : length _ = _ |- _ => rewrite H end
    | rewrite length_poke by block_len ];
  cbn [Nat.add Nat.mul]; lia.

Ltac peek_through :=
  repeat rewrite peek_poke_other by block_len;
  rewrite peek_poke_same' by block_len; reflexivity.

#[local] Arguments poke : simpl never.
#[local] Arguments peek : simpl never.
#[local] Arguments encode_int : simpl never.
#[local] Arguments decode_int : simpl never.
#[local] Arguments decode_uint : simpl never.
#[local] Arguments decode_floats : simpl never.
#[local] Arguments offsetof : simpl never.
#[local] Arguments sizeof_long : simpl never.
#[local] Arguments sizeof_ExportData : simpl never.

(** Reading back the object representation of a well-formed record
    gives the record, whatever the unspecified bytes it was stored
    over. *)
Lemma read_repr_record a blk d :
  well_formed d -> length blk = sizeof_ExportData a ->
  read_record a (repr_ExportData a blk d) = Some (as_stored a d).
Proof.
  intros Hwf Hlen. destruct d as [t [v | m | m]]; unfold well_formed in Hwf;
    cbn [member type] in Hwf.
  - destruct Hwf as (-> & Hty & Hval). destruct v as [ty val ts].
    cbn [vs_type vs_val] in Hty, Hval. subst ty.
    destruct a as [[|] o]; revert Hlen; layout; intros Hlen;
    unfold repr_ExportData, repr_ValueStruct;
    cbn [member type vs_type vs_val vs_timestamp]; layout;
    match goal with |- context [read_record ?a ?b] =>
      assert (H0 : peek 0 4 b = encode_int a 4 1) by peek_through;
      assert (H1 : peek (offsetof (ExportData_fields a) 1 + 0) 4 b
                   = encode_int a 4 1) by (layout; peek_through);
      assert (H2 : peek (offsetof (ExportData_fields a) 1 + 4) 4 b
                   = encode_int a 4 val) by (layout; peek_through);
      assert (H3 : peek (offsetof (ExportData_fields a) 1
                         + offsetof (ValueStruct_fields a) 2) (sizeof_long a) b
                   = encode_int a (sizeof_long a) ts) by (layout; peek_through);
      set (B := b) in *
    end;
    unfold read_record, read_ValueStruct; layout;
    rewrite H0, decode_encode_type by lia; cbn [Z.eqb enum_value Pos.eqb];
    unfold as_stored, stored_long; cbn [member type vs_type vs_val vs_timestamp];
    revert H1 H2 H3; layout; intros H1 H2 H3;
    rewrite H1, H2, H3, decode_encode_type, decode_encode_float by lia;
    reflexivity.
  - destruct Hwf as (-> & Hty & Hlv & Hval). destruct m as [ty vals ts].
    cbn [mvs_type mvs_val] in Hty, Hlv, Hval. subst ty.
    destruct a as [[|] o]; revert Hlen; layout; intros Hlen;
    unfold repr_ExportData, repr_MValueStruct;
    cbn [member type mvs_type mvs_val mvs_timestamp]; layout;
    match goal with |- context [read_record ?a ?b] =>
      assert (H0 : peek 0 4 b = encode_int a 4 2) by peek_through;
      assert (H1 : peek (offsetof (ExportData_fields a) 1 + 0) 4 b
                   = encode_int a 4 2) by (layout; peek_through);
      assert (H2 : peek (offsetof (ExportData_fields a) 1 + 4) (10 * 4) b
                   = concat (map (encode_int a sizeof_float) vals))
        by (layout; peek_through);
      assert (H3 : peek (offsetof (ExportData_fields a) 1
                         + offsetof (MValueStruct_fields a) 2) (sizeof_long a) b
                   = encode_int a (sizeof_long a) ts) by (layout; peek_through);
      set (B := b) in *
    end;
    unfold read_record, read_MValueStruct; layout;
    rewrite H0, decode_encode_type by lia; cbn [Z.eqb enum_value Pos.eqb];
    unfold as_stored, stored_long;
    cbn [member type mvs_type mvs_val mvs_timestamp];
    revert H1 H2 H3; layout; intros H1 H2 H3;
    rewrite H1, H2, H3, decode_encode_type by lia;
    rewrite <- Hlv at 1; rewrite decode_floats_encode by exact Hval;
    reflexivity.
  - destruct Hwf as (-> & Hty & Hlm). destruct m as [ty msg].
    cbn [ms_type ms_message] in Hty, Hlm. subst ty.
    destruct a as [[|] o]; revert Hlen; layout; intros Hlen;
    unfold repr_ExportData, repr_MessageStruct;
    cbn [member type ms_type ms_message]; layout;
    match goal with |- context [read_record ?a ?b] =>
      assert (H0 : peek 0 4 b = encode_int a 4 3) by peek_through;
      assert (H1 : peek (offsetof (ExportData_fields a) 1 + 0) 4 b
                   = encode_int a 4 3) by (layout; peek_through);
      assert (H2 : peek (offsetof (ExportData_fields a) 1 + 4) 21 b = msg)
        by (layout; peek_through);
      set (B := b) in *
    end;
    unfold read_record, read_MessageStruct; layout;
    rewrite H0, decode_encode_type by lia; cbn [Z.eqb enum_value Pos.eqb];
    unfold as_stored; cbn [member type ms_type ms_message];
    revert H1 H2; layout; intros H1 H2;
    rewrite H1, H2, decode_encode_type by lia;
    reflexivity.
Qed.

Lemma length_repr_record a blk d :
  well_formed d -> length blk = sizeof_ExportData a ->
  length (repr_ExportData a blk d) = sizeof_ExportData a.
Proof.
  intros Hwf Hlen. rewrite <- Hlen.
  destruct d as [t [v | m | m]]; unfold well_formed in Hwf;
    cbn [member type] in Hwf.
  - destruct a as [[|] o]; revert Hlen; layout; intros Hlen;
    unfold repr_ExportData, repr_ValueStruct; cbn [member]; layout;
    block_len.
  - destruct Hwf as (_ & _ & Hlv & _).
    destruct a as [[|] o]; revert Hlen; layout; intros Hlen;
    unfold repr_ExportData, repr_MValueStruct; cbn [member]; layout;
    block_len.
  - destruct Hwf as (_ & _ & Hlm).
    destruct a as [[|] o]; revert Hlen; layout; intros Hlen;
    unfold repr_ExportData, repr_MessageStruct; cbn [member]; layout;
    block_len.
Qed.

Lemma erase_as_stored a d : erase_timestamp (as_stored a d) = erase_timestamp d.
Proof. destruct d as [t [v | m | m]]; reflexivity. Qed.

Lemma expected_record_well_formed E t0 j :
  0 <= j -> well_formed (expected_record E t0 j).
Proof.
  intros Hj. unfold expected_record.
  assert (Hr : j mod 3 = 0 \/ j mod 3 = 1 \/ j mod 3 = 2) by zdiv.
  destruct Hr as [-> | [-> | ->]]; unfold well_formed; cbn [member type].
  - repeat split; cbn [vs_val].
    + assert (Hn : (Z.to_nat ((j / 3) mod 10) < 10)%nat) by zdiv.
      revert Hn. generalize (Z.to_nat ((j / 3) mod 10)). intros n Hn.
      do 10 (destruct n as [| n]; [cbn; lia |]). lia.
    + assert (Hn : (Z.to_nat ((j / 3) mod 10) < 10)%nat) by zdiv.
      revert Hn. generalize (Z.to_nat ((j / 3) mod 10)). intros n Hn.
      do 10 (destruct n as [| n]; [cbn; lia |]). lia.
  - repeat split. cbn [mvs_val]. unfold float_array.
    repeat constructor; lia.
  - repeat split. cbn [ms_message].
    assert (Hn : (Z.to_nat ((j / 3) mod 7) < 7)%nat) by zdiv.
    pose proof (export_strings_lookup _ Hn) as Hlk.
    exact (proj1 (proj1 (Forall_lookup _ _) export_strings_terminated _ _ Hlk)).
Qed.

(** ** The dump *)

Lemma length_blank A E i : length (blank A E i) = sizeof_ExportData A.
Proof. unfold blank. rewrite length_map, length_seq. reflexivity. Qed.

Lemma generated_records E w0 w N :
  0 <= N -> generated E w0 w N -> 
  take (Z.to_nat N) (heap w) = Some <$> expected_records E (ticks w0) (Z.to_nat N).
Proof.
  intros HN (_ & _ & _ & _ & _ & Hh). apply list_eq. intros i.
  unfold expected_records.
  destruct (Nat.lt_ge_cases i (Z.to_nat N)) as [Hlt | Hge].
  - rewrite lookup_take_lt by exact Hlt.
    rewrite !list_lookup_fmap, lookup_seq_lt by exact Hlt. cbn.
    specialize (Hh (Z.of_nat i)). rewrite Nat2Z.id in Hh. apply Hh. lia.
  - rewrite lookup_take_ge by exact Hge. symmetry.
    apply lookup_ge_None_2. rewrite !length_fmap, length_seq. exact Hge.
Qed.

Lemma expected_records_well_formed E t0 n :
  Forall well_formed (expected_records E t0 n).
Proof.
  unfold expected_records. apply Forall_fmap, Forall_forall.
  intros j _. apply expected_record_well_formed. lia.
Qed.

(** The blocks [fwrite] reads from initialised, well-formed records:
    each has the record size and reads back as its record. *)
Lemma dump_blocks A E recs :
  Forall well_formed recs ->
  forall g : nat -> nat,
    Forall2 (fun b d => length b = sizeof_ExportData A /\
                        read_record A b = Some d)
      (imap (fun i => object_bytes A E (g i)) (Some <$> recs))
      (as_stored A <$> recs).
Proof.
  induction 1 as [| d recs Hd _ IH]; intros g; [constructor |].
  cbn [fmap list_fmap]. rewrite imap_cons. constructor.
  - cbn [object_bytes]. split.
    + apply length_repr_record; [exact Hd | apply length_blank].
    + apply read_repr_record; [exact Hd | apply length_blank].
  - apply (IH (fun i => g (S i))).
Qed.

Lemma sizeof_ExportData_pos a : (0 < sizeof_ExportData a)%nat.
Proof. destruct a as [[|] o]; layout; lia. Qed.

Lemma read_blocks_concat a blocks ds :
  Forall2 (fun b d => length b = sizeof_ExportData a /\
                      read_record a b = Some d) blocks ds ->
  forall fuel, (length blocks <= fuel)%nat ->
    read_blocks fuel a (concat blocks) = Some ds.
Proof.
  induction 1 as [| b d blocks ds [Hlen Hread] _ IH]; intros fuel Hfuel.
  - destruct fuel; reflexivity.
  - cbn [length] in Hfuel. destruct fuel as [| fuel]; [lia |].
    cbn [concat].
    pose proof (sizeof_ExportData_pos a) as Hpos.
    destruct b as [| x b]; [cbn in Hlen; lia |].
    cbn [app read_blocks]. change (x :: b ++ concat blocks) with ((x :: b) ++ concat blocks).
    destruct (Nat.ltb_spec (length ((x :: b) ++ concat blocks)) (sizeof_ExportData a))
      as [Hshort | _]; [rewrite length_app in Hshort; lia |].
    rewrite take_app_length' by (symmetry; exact Hlen).
    rewrite drop_app_length' by (symmetry; exact Hlen).
    rewrite Hread, IH by lia. reflexivity.
Qed.

Lemma length_concat_blocks {X : Type} (n : nat) (blocks : list (list X)) :
  Forall (fun b => length b = n) blocks ->
  length (concat blocks) = (length blocks * n)%nat.
Proof.
  induction 1 as [| b blocks Hb _ IH]; [reflexivity |].
  cbn [concat length]. rewrite length_app, Hb, IH. lia.
Qed.

Lemma fopen_export_run A E N w :
  fopen_ok E = true -> sink_room E = None ->
  (Z.to_nat N <= length (heap w))%nat ->
  bind (fopen E) (fun fp => export A E Block N fp) w =
    Done tt (set_sink (concat (imap (object_bytes A E)
                                 (take (Z.to_nat N) (heap w)))) w).
Proof.
  intros Hopen Hroom Hbuf. unfold bind, fopen, export, fwrite, bind. rewrite Hopen.
  cbn [heap set_sink sink].
  destruct (Nat.leb_spec (Z.to_nat N) (length (heap w))) as [_ | Hbad]; [| lia].
  unfold accepted. rewrite Hroom. reflexivity.
Qed.

(** A run of the generator followed by the writer, over a buffer of at
    least [N] records, with a file that opens and a device that takes
    every byte: the result, in closed form. *)
Lemma generate_and_export_run A E N w0 :
  fresh w0 -> 0 <= N <= INT_MAX -> (Z.to_nat N <= length (heap w0))%nat ->
  fopen_ok E = true -> sink_room E = None ->
  exists w1 w2,
    fill_export_data E Block N w0 = Done tt w1 /\
    take (Z.to_nat N) (heap w1) =
      Some <$> expected_records E (ticks w0) (Z.to_nat N) /\
    bind (fopen E) (fun fp => export A E Block N fp) w1 = Done tt w2 /\
    sink w2 = concat (imap (object_bytes A E)
                        (Some <$> expected_records E (ticks w0) (Z.to_nat N))).
Proof.
  intros Hfresh HN Hbuf Hopen Hroom.
  destruct (fill_export_data_run E N w0) as (w1 & Hrun & Hgen); try assumption.
  pose proof (generated_records E w0 w1 N ltac:(lia) Hgen) as Hrecs.
  destruct Hgen as (_ & _ & _ & Hl & _ & _).
  exists w1. eexists. split; [exact Hrun |]. split; [exact Hrecs |].
  split; [apply fopen_export_run; try assumption; lia |].
  cbn [sink set_sink]. rewrite Hrecs. reflexivity.
Qed.

Lemma dump_blocks_sized A E recs :
  Forall well_formed recs ->
  Forall (fun b => length b = sizeof_ExportData A)
    (imap (object_bytes A E) (Some <$> recs)).
Proof.
  intros Hwf.
  assert (Hgen : forall (P : list byte -> ExportData -> Prop) bs ds,
             Forall2 P bs ds ->
             (forall b d, P b d -> length b = sizeof_ExportData A) ->
             Forall (fun b => length b = sizeof_ExportData A) bs).
  { intros P bs ds H2 HP.
    induction H2 as [| b d bs ds Hb _ IH]; constructor; eauto. }
  apply (Hgen _ _ _ (dump_blocks A E recs Hwf (fun i => i))).
  intros b d [Hb _]. exact Hb.
Qed.

Lemma length_expected_records E t0 n : length (expected_records E t0 n) = n.
Proof. unfold expected_records. rewrite length_fmap, length_seq. reflexivity. Qed.

Lemma generated_dump_length A E N w0 :
  fresh w0 -> 0 <= N <= INT_MAX -> (Z.to_nat N <= length (heap w0))%nat ->
  fopen_ok E = true -> sink_room E = None ->
  exists w1 w2,
    fill_export_data E Block N w0 = Done tt w1 /\
    bind (fopen E) (fun fp => export A E Block N fp) w1 = Done tt w2 /\
    length (sink w2) = (Z.to_nat N * sizeof_ExportData A)%nat.
Proof.
  intros Hfresh HN Hbuf Hopen Hroom.
  destruct (generate_and_export_run A E N w0)
    as (w1 & w2 & Hfill & _ & Hexp & Hsink); try assumption.
  exists w1, w2. split; [exact Hfill |]. split; [exact Hexp |].
  rewrite Hsink.
  rewrite (length_concat_blocks (sizeof_ExportData A))
    by (apply dump_blocks_sized, expected_records_well_formed).
  rewrite length_imap, length_fmap, length_expected_records. reflexivity.
Qed.

(** C2. Generating [N] records and writing them leaves exactly
    [N * sizeof(ExportData)] bytes in the output file; with [N = 0] the
    file is empty. *)
Theorem dump_has_N_blocks A E N w0 :
  fresh w0 -> 0 <= N <= INT_MAX -> (Z.to_nat N <= length (heap w0))%nat ->
  fopen_ok E = true -> sink_room E = None ->
  exists w1 w2,
    fill_export_data E Block N w0 = Done tt w1 /\
    bind (fopen E) (fun fp => export A E Block N fp) w1 = Done tt w2 /\
    length (sink w2) = (Z.to_nat N * sizeof_ExportData A)%nat /\
    (N = 0 -> sink w2 = []).
Proof.
  intros Hfresh HN Hbuf Hopen Hroom.
  destruct (generated_dump_length A E N w0)
    as (w1 & w2 & Hfill & Hexp & Hlen); try assumption.
  exists w1, w2. split; [exact Hfill |]. split; [exact Hexp |].
  split; [exact Hlen |].
  intros ->. apply nil_length_inv. rewrite Hlen. reflexivity.
Qed.

Lemma dump_has_N_blocks_witness :
  exists w1 w2,
    fill_export_data sample_env Block 100 (allocated 100 []) = Done tt w1 /\
    bind (fopen sample_env) (fun fp => export sample_abi sample_env Block 100 fp) w1
      = Done tt w2 /\
    length (sink w2) = (Z.to_nat 100 * sizeof_ExportData sample_abi)%nat /\
    (100 = 0 -> sink w2 = []).
Proof.
  apply (dump_has_N_blocks sample_abi sample_env 100 (allocated 100 [])).
  - split; reflexivity.
  - unfold INT_MAX. lia.
  - cbn. lia.
  - reflexivity.
  - reflexivity.
Defined.

(** C6. Reading the dump of a run of [N] records back, block by block
    in the layout of the record, gives [N] records with the
    discriminants and the payloads of the generated ones, timestamps
    apart, whatever the values of the unspecified bytes. *)
Theorem dump_reads_back A E N w0 :
  fresh w0 -> 0 <= N <= INT_MAX -> (Z.to_nat N <= length (heap w0))%nat ->
  fopen_ok E = true -> sink_room E = None ->
  exists w1 w2 recs ds,
    fill_export_data E Block N w0 = Done tt w1 /\
    take (Z.to_nat N) (heap w1) = Some <$> recs /\
    bind (fopen E) (fun fp => export A E Block N fp) w1 = Done tt w2 /\
    read_dump A (sink w2) = Some ds /\
    length ds = Z.to_nat N /\
    type <$> ds = type <$> recs /\
    erase_timestamp <$> ds = erase_timestamp <$> recs.
Proof.
  intros Hfresh HN Hbuf Hopen Hroom.
  destruct (generate_and_export_run A E N w0)
    as (w1 & w2 & Hfill & Hrecs & Hexp & Hsink); try assumption.
  set (recs := expected_records E (ticks w0) (Z.to_nat N)) in *.
  assert (Hwf : Forall well_formed recs)
    by apply expected_records_well_formed.
  exists w1, w2, recs, (as_stored A <$> recs).
  split; [exact Hfill |]. split; [exact Hrecs |]. split; [exact Hexp |].
  repeat split.
  - unfold read_dump. rewrite Hsink.
    apply read_blocks_concat; [apply (dump_blocks A E recs Hwf (fun i => i)) |].
    rewrite (length_concat_blocks (sizeof_ExportData A))
      by (apply dump_blocks_sized; exact Hwf).
    pose proof (sizeof_ExportData_pos A). nia.
  - rewrite length_fmap. apply length_expected_records.
  - rewrite <- list_fmap_compose. apply list_fmap_ext.
    intros _ d _. destruct d as [t [v | m | m]]; reflexivity.
  - rewrite <- list_fmap_compose. apply list_fmap_ext.
    intros _ d _. apply erase_as_stored.
Qed.

Lemma dump_reads_back_witness :
  exists w1 w2 recs ds,
    fill_export_data sample_env Block 100 (allocated 100 []) = Done tt w1 /\
    take (Z.to_nat 100) (heap w1) = Some <$> recs /\
    bind (fopen sample_env) (fun fp => export sample_abi sample_env Block 100 fp) w1
      = Done tt w2 /\
    read_dump sample_abi (sink w2) = Some ds /\
    length ds = Z.to_nat 100 /\
    type <$> ds = type <$> recs /\
    erase_timestamp <$> ds = erase_timestamp <$> recs.
Proof.
  apply (dump_reads_back sample_abi sample_env 100 (allocated 100 [])).
  - split; reflexivity.
  - unfold INT_MAX. lia.
  - cbn. lia.
  - reflexivity.
  - reflexivity.
Defined.

(** ** Failing allocation, failing open *)

(** C8, refuted as stated. When [malloc] returns [NULL] the run does
    not end with a failure status: it stores through the null pointer. *)
Lemma failed_allocation_is_no_abort :
  ~ failures_abort sample_abi no_memory_env [].
Proof.
  intros [Hmem _]. destruct (Hmem eq_refl) as (code & w & Hrun & _).
  vm_compute in Hrun. discriminate Hrun.
Qed.

Lemma main_without_memory A E old :
  malloc_ok E = false ->
  exists w, main A E (initial_world old) = Undefined w /\
            sink w = old /\ heap w = [].
Proof.
  intros Hmem. unfold main, bind, malloc. rewrite Hmem.
  eexists. split; [vm_compute; reflexivity |]. split; reflexivity.
Qed.

Lemma main_without_file A E old :
  malloc_ok E = true -> fopen_ok E = false ->
  exists w, main A E (initial_world old) = Undefined w /\
            sink w = old /\
            take 100 (heap w) = Some <$> expected_records E 0 100.
Proof.
  intros Hmem Hopen. unfold main, bind at 1, malloc. rewrite Hmem.
  rewrite Nat.mul_comm, Nat.div_mul
    by (pose proof (sizeof_ExportData_pos A); lia).
  change (Z.to_nat EXPORT_DATA_LEN) with 100%nat.
  change (set_heap (replicate 100 None) (initial_world old))
    with (allocated 100 old).
  destruct (fill_export_data_run E EXPORT_DATA_LEN (allocated 100 old))
    as (w1 & Hrun & Hgen).
  { split; reflexivity. }
  { unfold EXPORT_DATA_LEN, INT_MAX. lia. }
  { unfold EXPORT_DATA_LEN. cbn. lia. }
  pose proof (generated_records E _ w1 EXPORT_DATA_LEN ltac:(unfold EXPORT_DATA_LEN; lia) Hgen)
    as Hrecs.
  destruct Hgen as (_ & _ & _ & _ & Hsink & _).
  exists w1. unfold bind at 1. rewrite Hrun.
  unfold bind, fopen. rewrite Hopen. cbn.
  split; [reflexivity |]. split; [exact Hsink | exact Hrecs].
Qed.

(** C8, amended. The program tests neither the result of [malloc] nor
    that of [fopen]. When the allocation fails, the first record is
    stored through a null pointer, which is undefined, before the file
    is opened; when the file cannot be opened, the hundred records are
    generated and the null stream is handed to [fwrite], which is
    undefined. In both cases the file still holds what it held before
    the run when that point is reached: nothing was written. *)
Theorem unchecked_failures_are_undefined A E old :
  (malloc_ok E = false ->
     exists w, main A E (initial_world old) = Undefined w /\
               sink w = old /\ heap w = []) /\
  (malloc_ok E = true -> fopen_ok E = false ->
     exists w, main A E (initial_world old) = Undefined w /\
               sink w = old /\
               take 100 (heap w) = Some <$> expected_records E 0 100).
Proof.
  split; [apply main_without_memory | apply main_without_file].
Qed.

Lemma unchecked_failures_are_undefined_witness :
  (exists w, main sample_abi no_memory_env (initial_world []) = Undefined w /\
             sink w = [] /\ heap w = []) /\
  (exists w, main sample_abi no_file_env (initial_world []) = Undefined w /\
             sink w = [] /\
             take 100 (heap w) = Some <$> expected_records no_file_env 0 100).
Proof.
  split.
  - apply (proj1 (unchecked_failures_are_undefined sample_abi no_memory_env [])).
    reflexivity.
  - apply (proj2 (unchecked_failures_are_undefined sample_abi no_file_env []));
      reflexivity.
Defined.

(** With memory, a file and a device that takes every byte, [main]
    returns 0 and leaves a hundred blocks in the file. *)
Lemma main_run A E old :
  malloc_ok E = true -> fopen_ok E = true -> sink_room E = None ->
  exists w, main A E (initial_world old) = Done 0 w /\
            length (sink w) = (100 * sizeof_ExportData A)%nat.
Proof.
  intros Hmem Hopen Hroom. unfold main, bind at 1, malloc. rewrite Hmem.
  rewrite Nat.mul_comm, Nat.div_mul
    by (pose proof (sizeof_ExportData_pos A); lia).
  change (Z.to_nat EXPORT_DATA_LEN) with 100%nat.
  change (set_heap (replicate 100 None) (initial_world old))
    with (allocated 100 old).
  destruct (generated_dump_length A E EXPORT_DATA_LEN (allocated 100 old))
    as (w1 & w2 & Hfill & Hexp & Hlen); try assumption.
  { split; reflexivity. }
  { unfold EXPORT_DATA_LEN, INT_MAX. lia. }
  { unfold EXPORT_DATA_LEN. cbn. lia. }
  unfold bind at 1. rewrite Hfill.
  unfold bind in Hexp. unfold bind at 1.
  destruct (fopen E w1) as [fp w1' | w1']; [| discriminate Hexp].
  unfold bind at 1. rewrite Hexp. cbn.
  eexists. split; [reflexivity |]. exact Hlen.
Qed.

(** * Further properties of the generator and the writer *)

(** ** The loop, from any cursor position *)

Lemma console_lines_succ i :
  0 <= i ->
  console_lines (Z.to_nat (i + 1)) =
    console_lines (Z.to_nat i) ++ [(i, 1 + i mod 3)].
Proof.
  intros Hi. unfold console_lines.
  replace (Z.to_nat (i + 1)) with (S (Z.to_nat i)) by lia.
  rewrite seq_S, fmap_app. cbn [fmap list_fmap Nat.add].
  rewrite Z2Nat.id by lia. reflexivity.
Qed.

Lemma reached_start E w : in_range w -> reached E w w 0.
Proof.
  intros [Hv Hs]. unfold reached. repeat split.
  - zdiv.
  - zdiv.
  - zdiv.
  - cbn. rewrite app_nil_r. reflexivity.
  - intros j Hj. lia.
Qed.

Lemma reached_in_range E w0 w i : reached E w0 w i -> in_range w.
Proof. intros (Hv & Hs & _). split; [rewrite Hv | rewrite Hs]; zdiv. Qed.

Lemma fill_body_reach E w0 i w :
  0 <= i -> (Z.to_nat i < length (heap w0))%nat ->
  reached E w0 w i ->
  exists w', fill_body E Block i w = Done tt w' /\ reached E w0 w' (i + 1).
Proof.
  intros Hi Hlen Hreach.
  pose proof (reached_in_range _ _ _ _ Hreach) as [Hvr Hsr].
  destruct Hreach as (Hv & Hs & Ht & Ho & Hk & Hl & Hh & Hf).
  assert (Hr : i mod 3 = 0 \/ i mod 3 = 1 \/ i mod 3 = 2) by zdiv.
  unfold fill_body, bind. rewrite Z.rem_mod_nonneg by lia.
  destruct Hr as [Hr | [Hr | Hr]]; rewrite Hr.
  - assert (Hexp : record_from E (val_counter w0) (string_counter w0) (ticks w0) i =
        mkExportData 1 (U_val (mkValueStruct 1
          (nth (Z.to_nat (val_counter w)) float_array 0) (clock E (ticks w))))).
    { unfold record_from. rewrite Hr. do 3 f_equal.
      - do 2 f_equal. rewrite Hv. zdiv.
      - f_equal. rewrite Ht. zdiv. }
    rewrite get_value_struct_run by assumption.
    unfold ret, printf, modify. rewrite store_run by (cbn; lia).
    eexists; split; [reflexivity |].
    unfold reached; repeat split; cbn.
    + rewrite Hv. zdiv.
    + rewrite Hs. zdiv.
    + rewrite Ht. zdiv.
    + rewrite console_lines_succ, Ho, Hr by lia. rewrite <- app_assoc. reflexivity.
    + exact Hk.
    + rewrite length_insert. exact Hl.
    + intros j Hj. destruct (Z.eq_dec j i) as [-> | Hne].
      * rewrite list_lookup_insert_eq by lia. rewrite Hexp. reflexivity.
      * rewrite list_lookup_insert_ne by lia. apply Hh. lia.
    + intros j Hj. rewrite list_lookup_insert_ne by lia. apply Hf. lia.
  - assert (Hexp : record_from E (val_counter w0) (string_counter w0) (ticks w0) i =
        mkExportData 2 (U_mvals (mkMValueStruct 2 float_array
                                   (clock E (ticks w))))).
    { unfold record_from. rewrite Hr. do 4 f_equal. rewrite Ht. zdiv. }
    rewrite get_m_value_struct_run.
    unfold ret, printf, modify. rewrite store_run by (cbn; lia).
    eexists; split; [reflexivity |].
    unfold reached; repeat split; cbn.
    + rewrite Hv. zdiv.
    + rewrite Hs. zdiv.
    + rewrite Ht. zdiv.
    + rewrite console_lines_succ, Ho, Hr by lia. rewrite <- app_assoc. reflexivity.
    + exact Hk.
    + rewrite length_insert. exact Hl.
    + intros j Hj. destruct (Z.eq_dec j i) as [-> | Hne].
      * rewrite list_lookup_insert_eq by lia. rewrite Hexp. reflexivity.
      * rewrite list_lookup_insert_ne by lia. apply Hh. lia.
    + intros j Hj. rewrite list_lookup_insert_ne by lia. apply Hf. lia.
  - assert (Hexp : record_from E (val_counter w0) (string_counter w0) (ticks w0) i =
        mkExportData 3 (U_messages (mkMessageStruct 3
          (nth (Z.to_nat (string_counter w)) export_strings [])))).
    { unfold record_from. rewrite Hr. do 5 f_equal. rewrite Hs. zdiv. }
    rewrite get_message_struct_run by assumption.
    unfold ret, printf, modify. rewrite store_run by (cbn; lia).
    eexists; split; [reflexivity |].
    unfold reached; repeat split; cbn.
    + rewrite Hv. zdiv.
    + rewrite Hs. zdiv.
    + rewrite Ht. zdiv.
    + rewrite console_lines_succ, Ho, Hr by lia. rewrite <- app_assoc. reflexivity.
    + exact Hk.
    + rewrite length_insert. exact Hl.
    + intros j Hj. destruct (Z.eq_dec j i) as [-> | Hne].
      * rewrite list_lookup_insert_eq by lia. rewrite Hexp. reflexivity.
      * rewrite list_lookup_insert_ne by lia. apply Hh. lia.
    + intros j Hj. rewrite list_lookup_insert_ne by lia. apply Hf. lia.
Qed.

(** The loop, from index [i] up to any index [m] the buffer and the
    range of [int] allow: the state at [m], from which it goes on. *)
Lemma fill_loop_reach E w0 len m :
  m <= len -> m <= INT_MAX -> (Z.to_nat m <= length (heap w0))%nat ->
  forall n i w,
    n = Z.to_nat (m - i) -> 0 <= i <= m -> reached E w0 w i ->
    exists w', reached E w0 w' m /\
      forall fuel, (Z.to_nat (len - i) < fuel)%nat ->
        fill_loop E fuel Block len i w = fill_loop E fuel Block len m w'.
Proof.
  intros Hlen Hmax Hbuf n.
  induction n as [| n IH]; intros i w Hn Hi Hreach.
  - assert (i = m) as -> by lia. exists w. split; [assumption | reflexivity].
  - destruct (fill_body_reach E w0 i w) as (w1 & Hbody & Hreach1);
      [lia | lia | assumption |].
    destruct (IH (i + 1) w1) as (w' & Hreach' & Hgo);
      [lia | lia | assumption |].
    exists w'. split; [assumption |].
    intros fuel Hfuel. destruct fuel as [| fuel]; [lia |].
    rewrite (fill_loop_fuel E Block len (S fuel) fuel m w') by lia.
    cbn [fill_loop]. rewrite to_uint32_small by lia.
    destruct (Z.ltb_spec i len) as [_ | Hge]; [| lia].
    unfold bind. rewrite Hbody.
    rewrite int_add_run by (unfold INT_MIN; lia).
    apply Hgo. lia.
Qed.

Lemma fill_export_data_reach E N w0 :
  in_range w0 -> 0 <= N <= INT_MAX -> (Z.to_nat N <= length (heap w0))%nat ->
  exists w', fill_export_data E Block N w0 = Done tt w' /\ reached E w0 w' N.
Proof.
  intros Hrange HN Hbuf.
  destruct (fill_loop_reach E w0 N N ltac:(lia) ltac:(lia) Hbuf
              (Z.to_nat (N - 0)) 0 w0 eq_refl ltac:(lia)
              (reached_start E w0 Hrange)) as (w' & Hreach & Hgo).
  exists w'. split; [| exact Hreach].
  unfold fill_export_data. rewrite Hgo by lia.
  cbn [fill_loop]. rewrite to_uint32_small by lia.
  rewrite Z.ltb_irrefl. reflexivity.
Qed.

Lemma record_from_scalar E c0 s0 t0 k :
  0 <= k ->
  record_from E c0 s0 t0 (3 * k) =
    mkExportData 1 (U_val (mkValueStruct 1
      (nth (Z.to_nat ((c0 + k) mod 10)) float_array 0)
      (clock E (t0 + Z.to_nat (2 * k))))).
Proof.
  intros Hk. unfold record_from.
  replace ((3 * k) mod 3) with 0 by zdiv.
  replace (3 * k / 3) with k by zdiv. reflexivity.
Qed.

Lemma record_from_message E c0 s0 t0 k :
  0 <= k ->
  record_from E c0 s0 t0 (3 * k + 2) =
    mkExportData 3 (U_messages (mkMessageStruct 3
      (nth (Z.to_nat ((s0 + k) mod 7)) export_strings []))).
Proof.
  intros Hk. unfold record_from.
  replace ((3 * k + 2) mod 3) with 2 by zdiv.
  replace ((3 * k + 2) / 3) with k by zdiv. reflexivity.
Qed.

(** ** Calls after the first *)

(** X1. From any state with the cursors inside their tables, as any
    earlier call leaves them, a run of [N] records returns; the [k]-th
    Scalar record carries the float [k] places after the float cursor
    at the start, the [k]-th Message record the string [k] places after
    the string cursor, both modulo the table lengths; the cursors end
    inside their tables, moved by the number of Scalar and of Message
    records. *)
Theorem run_continues_from_cursors E N w0 :
  in_range w0 -> 0 <= N <= INT_MAX -> (Z.to_nat N <= length (heap w0))%nat ->
  exists w', fill_export_data E Block N w0 = Done tt w' /\
    in_range w' /\
    val_counter w' = (val_counter w0 + (N + 2) / 3) mod 10 /\
    string_counter w' = (string_counter w0 + N / 3) mod 7 /\
    (forall k, 0 <= k -> 3 * k < N ->
       exists v, heap w' !! Z.to_nat (3 * k) =
                   Some (Some (mkExportData 1 (U_val v))) /\
         float_array !! Z.to_nat ((val_counter w0 + k) mod 10)
           = Some (vs_val v)) /\
    (forall k, 0 <= k -> 3 * k + 2 < N ->
       exists m, heap w' !! Z.to_nat (3 * k + 2) =
                   Some (Some (mkExportData 3 (U_messages m))) /\
         export_strings !! Z.to_nat ((string_counter w0 + k) mod 7)
           = Some (ms_message m)).
Proof.
  intros Hrange HN Hbuf.
  destruct (fill_export_data_reach E N w0) as (w' & Hrun & Hreach);
    try assumption.
  exists w'. split; [exact Hrun |].
  split; [exact (reached_in_range _ _ _ _ Hreach) |].
  destruct Hreach as (Hv & Hs & _ & _ & _ & _ & Hh & _).
  split; [exact Hv |]. split; [exact Hs |]. split.
  - intros k Hk HkN. rewrite Hh, record_from_scalar by lia.
    eexists; split; [reflexivity |]. cbn [vs_val].
    apply float_array_lookup. zdiv.
  - intros k Hk HkN. rewrite Hh, record_from_message by lia.
    eexists; split; [reflexivity |]. cbn [ms_message].
    apply export_strings_lookup. zdiv.
Qed.

Lemma run_continues_from_cursors_witness :
  exists w', fill_export_data sample_env Block 10 later_call_world = Done tt w' /\
    in_range w' /\
    val_counter w' = (val_counter later_call_world + (10 + 2) / 3) mod 10 /\
    string_counter w' = (string_counter later_call_world + 10 / 3) mod 7 /\
    (forall k, 0 <= k -> 3 * k < 10 ->
       exists v, heap w' !! Z.to_nat (3 * k) =
                   Some (Some (mkExportData 1 (U_val v))) /\
         float_array !! Z.to_nat ((val_counter later_call_world + k) mod 10)
           = Some (vs_val v)) /\
    (forall k, 0 <= k -> 3 * k + 2 < 10 ->
       exists m, heap w' !! Z.to_nat (3 * k + 2) =
                   Some (Some (mkExportData 3 (U_messages m))) /\
         export_strings !! Z.to_nat ((string_counter later_call_world + k) mod 7)
           = Some (ms_message m)).
Proof.
  apply (run_continues_from_cursors sample_env 10 later_call_world).
  - split; cbn; lia.
  - unfold INT_MAX. lia.
  - cbn. lia.
Defined.

(** X2. Two runs in a row in one process, of [N1] then [N2] records
    over the same block: the second run starts its index at 0 again but
    not its cursors, so its [k]-th Scalar record carries
    [float_array[(s + k) mod 10]] with [s] the number of Scalar records
    of the first run, its [k]-th Message record
    [export_strings[(m + k) mod 7]] with [m] the number of Message
    records of the first run; the records of the first run beyond
    [N2] stay in the block. *)
Theorem second_run_continues_first E N1 N2 w0 :
  fresh w0 ->
  0 <= N1 <= INT_MAX -> (Z.to_nat N1 <= length (heap w0))%nat ->
  0 <= N2 <= INT_MAX -> (Z.to_nat N2 <= length (heap w0))%nat ->
  exists w1 w2,
    fill_export_data E Block N1 w0 = Done tt w1 /\
    fill_export_data E Block N2 w1 = Done tt w2 /\
    (forall k, 0 <= k -> 3 * k < N2 ->
       exists v, heap w2 !! Z.to_nat (3 * k) =
                   Some (Some (mkExportData 1 (U_val v))) /\
         float_array !! Z.to_nat (((N1 + 2) / 3 + k) mod 10)
           = Some (vs_val v)) /\
    (forall k, 0 <= k -> 3 * k + 2 < N2 ->
       exists m, heap w2 !! Z.to_nat (3 * k + 2) =
                   Some (Some (mkExportData 3 (U_messages m))) /\
         export_strings !! Z.to_nat ((N1 / 3 + k) mod 7)
           = Some (ms_message m)) /\
    (forall j : nat, (Z.to_nat N2 <= j)%nat -> heap w2 !! j = heap w1 !! j).
Proof.
  intros [Hv0 Hs0] HN1 Hbuf1 HN2 Hbuf2.
  assert (Hrange0 : in_range w0) by (split; [rewrite Hv0 | rewrite Hs0]; lia).
  destruct (fill_export_data_reach E N1 w0) as (w1 & Hrun1 & Hreach1);
    try assumption.
  pose proof (reached_in_range _ _ _ _ Hreach1) as Hrange1.
  destruct Hreach1 as (Hv1 & Hs1 & _ & _ & _ & Hl1 & _ & _).
  destruct (fill_export_data_reach E N2 w1) as (w2 & Hrun2 & Hreach2);
    [assumption | assumption | lia |].
  destruct Hreach2 as (_ & _ & _ & _ & _ & _ & Hh2 & Hf2).
  exists w1, w2. split; [exact Hrun1 |]. split; [exact Hrun2 |].
  rewrite Hv0 in Hv1. rewrite Hs0 in Hs1.
  split; [| split].
  - intros k Hk HkN. rewrite Hh2, record_from_scalar by lia.
    eexists; split; [reflexivity |]. cbn [vs_val].
    replace (((N1 + 2) / 3 + k) mod 10) with ((val_counter w1 + k) mod 10)
      by (rewrite Hv1; zdiv).
    apply float_array_lookup. zdiv.
  - intros k Hk HkN. rewrite Hh2, record_from_message by lia.
    eexists; split; [reflexivity |]. cbn [ms_message].
    replace ((N1 / 3 + k) mod 7) with ((string_counter w1 + k) mod 7)
      by (rewrite Hs1; zdiv).
    apply export_strings_lookup. zdiv.
  - exact Hf2.
Qed.

Lemma second_run_continues_first_witness :
  exists w1 w2,
    fill_export_data sample_env Block 100 (allocated 100 []) = Done tt w1 /\
    fill_export_data sample_env Block 7 w1 = Done tt w2 /\
    (forall k, 0 <= k -> 3 * k < 7 ->
       exists v, heap w2 !! Z.to_nat (3 * k) =
                   Some (Some (mkExportData 1 (U_val v))) /\
         float_array !! Z.to_nat (((100 + 2) / 3 + k) mod 10)
           = Some (vs_val v)) /\
    (forall k, 0 <= k -> 3 * k + 2 < 7 ->
       exists m, heap w2 !! Z.to_nat (3 * k + 2) =
                   Some (Some (mkExportData 3 (U_messages m))) /\
         export_strings !! Z.to_nat ((100 / 3 + k) mod 7)
           = Some (ms_message m)) /\
    (forall j : nat, (Z.to_nat 7 <= j)%nat -> heap w2 !! j = heap w1 !! j).
Proof.
  apply (second_run_continues_first sample_env 100 7 (allocated 100 [])).
  - split; reflexivity.
  - unfold INT_MAX. lia.
  - cbn. lia.
  - unfold INT_MAX. lia.
  - cbn. lia.
Defined.

(** ** What a run leaves alone, what it prints *)

(** X3. A run of [N] records writes the first [N] records of the block
    and nothing else: the block keeps its length, every record from
    index [N] on is as it was, and the output file is as it was. *)
Theorem run_touches_first_N_only E N w0 :
  in_range w0 -> 0 <= N <= INT_MAX -> (Z.to_nat N <= length (heap w0))%nat ->
  exists w', fill_export_data E Block N w0 = Done tt w' /\
    length (heap w') = length (heap w0) /\
    (forall j : nat, (Z.to_nat N <= j)%nat -> heap w' !! j = heap w0 !! j) /\
    drop (Z.to_nat N) (heap w') = drop (Z.to_nat N) (heap w0) /\
    sink w' = sink w0.
Proof.
  intros Hrange HN Hbuf.
  destruct (fill_export_data_reach E N w0) as (w' & Hrun & Hreach);
    try assumption.
  destruct Hreach as (_ & _ & _ & _ & Hk & Hl & _ & Hf).
  exists w'. repeat split; try assumption.
  apply list_eq. intros j. rewrite !lookup_drop. apply Hf. lia.
Qed.

Lemma run_touches_first_N_only_witness :
  exists w', fill_export_data sample_env Block 7 later_call_world = Done tt w' /\
    length (heap w') = length (heap later_call_world) /\
    (forall j : nat, (Z.to_nat 7 <= j)%nat ->
       heap w' !! j = heap later_call_world !! j) /\
    drop (Z.to_nat 7) (heap w') = drop (Z.to_nat 7) (heap later_call_world) /\
    sink w' = sink later_call_world.
Proof.
  apply (run_touches_first_N_only sample_env 7 later_call_world).
  - split; cbn; lia.
  - unfold INT_MAX. lia.
  - cbn. lia.
Defined.

(** X4. A run of [N] records appends [N] lines to the console, in
    index order; line [i] holds the index [i] and the [type] of the
    record stored at [i]. *)
Theorem run_prints_index_and_type E N w0 :
  in_range w0 -> 0 <= N <= INT_MAX -> (Z.to_nat N <= length (heap w0))%nat ->
  exists w' lines, fill_export_data E Block N w0 = Done tt w' /\
    stdout w' = stdout w0 ++ lines /\
    length lines = Z.to_nat N /\
    forall i, 0 <= i < N ->
      exists d, heap w' !! Z.to_nat i = Some (Some d) /\
                lines !! Z.to_nat i = Some (i, type d).
Proof.
  intros Hrange HN Hbuf.
  destruct (fill_export_data_reach E N w0) as (w' & Hrun & Hreach);
    try assumption.
  destruct Hreach as (_ & _ & _ & Ho & _ & _ & Hh & _).
  exists w', (console_lines (Z.to_nat N)).
  split; [exact Hrun |]. split; [exact Ho |]. split.
  - unfold console_lines. rewrite length_fmap, length_seq. reflexivity.
  - intros i Hi. eexists. split; [apply Hh; lia |].
    unfold console_lines. rewrite list_lookup_fmap, lookup_seq_lt by lia.
    cbn. rewrite Z2Nat.id by lia. do 2 f_equal.
    unfold record_from.
    assert (Hr : i mod 3 = 0 \/ i mod 3 = 1 \/ i mod 3 = 2) by zdiv.
    destruct Hr as [-> | [-> | ->]]; reflexivity.
Qed.

Lemma run_prints_index_and_type_witness :
  exists w' lines, fill_export_data sample_env Block 100 (allocated 100 []) = Done tt w' /\
    stdout w' = stdout (allocated 100 []) ++ lines /\
    length lines = Z.to_nat 100 /\
    forall i, 0 <= i < 100 ->
      exists d, heap w' !! Z.to_nat i = Some (Some d) /\
                lines !! Z.to_nat i = Some (i, type d).
Proof.
  apply (run_prints_index_and_type sample_env 100 (allocated 100 [])).
  - split; cbn; lia.
  - unfold INT_MAX. lia.
  - cbn. lia.
Defined.

(** ** The limits of a run *)

Lemma fill_body_past_block E w0 w :
  Z.of_nat (length (heap w0)) <= INT_MAX ->
  reached E w0 w (Z.of_nat (length (heap w0))) ->
  exists w', fill_body E Block (Z.of_nat (length (heap w0))) w = Undefined w' /\
             heap w' = heap w /\ sink w' = sink w.
Proof.
  intros Hmax Hreach.
  pose proof (reached_in_range _ _ _ _ Hreach) as [Hvr Hsr].
  destruct Hreach as (_ & _ & _ & _ & _ & Hl & _ & _).
  set (i := Z.of_nat (length (heap w0))) in *.
  assert (Hi : 0 <= i) by lia.
  assert (Hr : i mod 3 = 0 \/ i mod 3 = 1 \/ i mod 3 = 2) by zdiv.
  assert (Hstore : forall d w1, heap w1 = heap w ->
            store Block i d w1 = Undefined w1).
  { intros d w1 Hw1. unfold store. rewrite Hw1, Hl.
    replace (Z.to_nat i <? length (heap w0))%nat with false
      by (symmetry; apply Nat.ltb_ge; lia).
    rewrite andb_false_r. reflexivity. }
  unfold fill_body, bind. rewrite Z.rem_mod_nonneg by lia.
  destruct Hr as [Hr | [Hr | Hr]]; rewrite Hr.
  - rewrite get_value_struct_run by assumption.
    unfold ret, printf, modify. rewrite Hstore by reflexivity.
    eexists; repeat split.
  - rewrite get_m_value_struct_run.
    unfold ret, printf, modify. rewrite Hstore by reflexivity.
    eexists; repeat split.
  - rewrite get_message_struct_run by assumption.
    unfold ret, printf, modify. rewrite Hstore by reflexivity.
    eexists; repeat split.
Qed.

(** X6. A run of more records than the block holds is undefined: the
    loop fills the whole block, then stores record number
    [length block] past its end. The file is as it was at that point. *)
Theorem run_past_the_block_is_undefined E N w0 :
  in_range w0 ->
  Z.of_nat (length (heap w0)) < N ->
  Z.of_nat (length (heap w0)) <= INT_MAX ->
  exists w', fill_export_data E Block N w0 = Undefined w' /\
    length (heap w') = length (heap w0) /\
    (forall j : nat, (j < length (heap w0))%nat ->
       exists d, heap w' !! j = Some (Some d) /\ type d = 1 + Z.of_nat j mod 3) /\
    sink w' = sink w0.
Proof.
  intros Hrange HN Hmax.
  set (L := Z.of_nat (length (heap w0))) in *.
  destruct (fill_loop_reach E w0 N L ltac:(lia) ltac:(lia) ltac:(lia)
              (Z.to_nat (L - 0)) 0 w0 eq_refl ltac:(lia)
              (reached_start E w0 Hrange)) as (w1 & Hreach & Hgo).
  destruct (fill_body_past_block E w0 w1 Hmax Hreach)
    as (w' & Hbody & Hheap & Hsink).
  destruct Hreach as (_ & _ & _ & _ & Hk & Hl & Hh & _).
  exists w'. split.
  - unfold fill_export_data. rewrite Hgo by lia.
    cbn [fill_loop]. rewrite to_uint32_small by lia.
    destruct (Z.ltb_spec L N) as [_ | Hge]; [| lia].
    unfold bind. fold L in Hbody. rewrite Hbody. reflexivity.
  - rewrite Hheap, Hsink. repeat split; try assumption.
    intros j Hj. eexists. split.
    + specialize (Hh (Z.of_nat j)). rewrite Nat2Z.id in Hh. apply Hh. lia.
    + unfold record_from.
      assert (Hr : Z.of_nat j mod 3 = 0 \/ Z.of_nat j mod 3 = 1 \/
                   Z.of_nat j mod 3 = 2) by zdiv.
      destruct Hr as [-> | [-> | ->]]; reflexivity.
Qed.

Lemma run_past_the_block_is_undefined_witness :
  exists w', fill_export_data sample_env Block 100 (allocated 10 []) = Undefined w' /\
    length (heap w') = length (heap (allocated 10 [])) /\
    (forall j : nat, (j < length (heap (allocated 10 [])))%nat ->
       exists d, heap w' !! j = Some (Some d) /\ type d = 1 + Z.of_nat j mod 3) /\
    sink w' = sink (allocated 10 []).
Proof.
  apply (run_past_the_block_is_undefined sample_env 100 (allocated 10 [])).
  - split; cbn; lia.
  - cbn. lia.
  - cbn. unfold INT_MAX. lia.
Defined.

(** X7. A run of no record returns at once and changes nothing, with
    any pointer, the null pointer too. A run of one record or more on a
    null pointer is undefined: the first Scalar is built, its line
    printed, and it is stored through the null pointer. *)
Theorem run_on_null_or_of_nothing E :
  (forall data w, fill_export_data E data 0 w = Done tt w) /\
  (forall N w, 1 <= N -> in_range w ->
     exists w', fill_export_data E NULL N w = Undefined w' /\
       val_counter w' = (val_counter w + 1) mod 10 /\
       stdout w' = stdout w ++ [(0, 1)] /\
       heap w' = heap w /\ sink w' = sink w).
Proof.
  split; [reflexivity |].
  intros N w HN [Hv Hs]. unfold fill_export_data.
  cbn [fill_loop]. change (to_uint32 0) with 0.
  destruct (Z.ltb_spec 0 N) as [_ | Hge]; [| lia].
  unfold bind at 1. unfold fill_body, bind.
  change (Z.rem 0 3) with 0. cbv beta iota.
  rewrite get_value_struct_run by assumption.
  eexists. split; [reflexivity |]. repeat split.
Qed.

Lemma run_on_null_or_of_nothing_witness :
  exists w', fill_export_data sample_env NULL 100 (initial_world []) = Undefined w' /\
    val_counter w' = (val_counter (initial_world []) + 1) mod 10 /\
    stdout w' = stdout (initial_world []) ++ [(0, 1)] /\
    heap w' = heap (initial_world []) /\ sink w' = sink (initial_world []).
Proof.
  apply (proj2 (run_on_null_or_of_nothing sample_env) 100 (initial_world [])).
  - lia.
  - split; cbn; lia.
Defined.

(** X5. A run of more than [INT_MAX] records overflows its [int]
    index: with a block large enough, records [0 .. INT_MAX] are all
    stored, then [i++] is undefined. *)
Theorem run_beyond_INT_MAX_overflows E N w0 :
  in_range w0 -> INT_MAX < N ->
  (Z.to_nat INT_MAX < length (heap w0))%nat ->
  exists w', fill_export_data E Block N w0 = Undefined w' /\
    (forall j, 0 <= j <= INT_MAX ->
       exists d, heap w' !! Z.to_nat j = Some (Some d)) /\
    sink w' = sink w0.
Proof.
  intros Hrange HN Hbuf.
  destruct (fill_loop_reach E w0 N INT_MAX ltac:(lia) ltac:(lia) ltac:(lia)
              (Z.to_nat (INT_MAX - 0)) 0 w0 eq_refl
              ltac:(unfold INT_MAX; lia)
              (reached_start E w0 Hrange)) as (w1 & Hreach & Hgo).
  destruct (fill_body_reach E w0 INT_MAX w1) as (w2 & Hbody & Hreach2);
    [unfold INT_MAX; lia | lia | assumption |].
  exists w2. split.
  - unfold fill_export_data. rewrite Hgo by (unfold INT_MAX in *; lia).
    cbn [fill_loop]. rewrite to_uint32_small by (unfold INT_MAX; lia).
    destruct (Z.ltb_spec INT_MAX N) as [_ | Hge]; [| lia].
    unfold bind. rewrite Hbody. reflexivity.
  - destruct Hreach2 as (_ & _ & _ & _ & Hk & _ & Hh & _).
    split; [| exact Hk].
    intros j Hj. eexists. apply Hh. lia.
Qed.

Lemma run_beyond_INT_MAX_overflows_witness :
  exists w', fill_export_data sample_env Block 2147483648
               (allocated (Z.to_nat 2147483648) []) = Undefined w' /\
    (forall j, 0 <= j <= INT_MAX ->
       exists d, heap w' !! Z.to_nat j = Some (Some d)) /\
    sink w' = sink (allocated (Z.to_nat 2147483648) []).
Proof.
  apply (run_beyond_INT_MAX_overflows sample_env 2147483648
           (allocated (Z.to_nat 2147483648) [])).
  - split; [change (0 <= 0 < 10) | change (0 <= 0 < 7)]; lia.
  - unfold INT_MAX. lia.
  - unfold allocated. cbn [heap set_heap]. rewrite length_replicate.
    unfold INT_MAX. lia.
Defined.

(** ** The sequence of payloads *)

Lemma erase_record_from_period E c0 s0 t0 j :
  0 <= j ->
  erase_timestamp (record_from E c0 s0 t0 (j + 210)) =
  erase_timestamp (record_from E c0 s0 t0 j).
Proof.
  intros Hj. unfold record_from.
  replace ((j + 210) mod 3) with (j mod 3) by zdiv.
  replace ((j + 210) / 3) with (j / 3 + 70) by zdiv.
  replace ((c0 + (j / 3 + 70)) mod 10) with ((c0 + j / 3) mod 10) by zdiv.
  replace ((s0 + (j / 3 + 70)) mod 7) with ((s0 + j / 3) mod 7) by zdiv.
  assert (Hr : j mod 3 = 0 \/ j mod 3 = 1 \/ j mod 3 = 2) by zdiv.
  destruct Hr as [-> | [-> | ->]]; reflexivity.
Qed.

(** X8. Timestamps apart, the records of a run repeat with period 210
    (three kinds, ten floats, seven strings): record [i + 210] has the
    discriminant and the payload of record [i]. *)
Theorem payloads_repeat_every_210 E N w0 :
  in_range w0 -> 0 <= N <= INT_MAX -> (Z.to_nat N <= length (heap w0))%nat ->
  exists w', fill_export_data E Block N w0 = Done tt w' /\
    forall i, 0 <= i -> i + 210 < N ->
      exists d d',
        heap w' !! Z.to_nat i = Some (Some d) /\
        heap w' !! Z.to_nat (i + 210) = Some (Some d') /\
        erase_timestamp d' = erase_timestamp d.
Proof.
  intros Hrange HN Hbuf.
  destruct (fill_export_data_reach E N w0) as (w' & Hrun & Hreach);
    try assumption.
  destruct Hreach as (_ & _ & _ & _ & _ & _ & Hh & _).
  exists w'. split; [exact Hrun |].
  intros i Hi HiN. eexists; eexists.
  split; [apply Hh; lia |]. split; [apply Hh; lia |].
  apply erase_record_from_period. exact Hi.
Qed.

Lemma payloads_repeat_every_210_witness :
  exists w', fill_export_data sample_env Block 300 (allocated 300 []) = Done tt w' /\
    forall i, 0 <= i -> i + 210 < 300 ->
      exists d d',
        heap w' !! Z.to_nat i = Some (Some d) /\
        heap w' !! Z.to_nat (i + 210) = Some (Some d') /\
        erase_timestamp d' = erase_timestamp d.
Proof.
  apply (payloads_repeat_every_210 sample_env 300 (allocated 300 [])).
  - split; cbn; lia.
  - unfold INT_MAX. lia.
  - cbn. lia.
Defined.

Lemma timestamp_of_record_from E c0 s0 t0 j :
  0 <= j ->
  timestamp_of (record_from E c0 s0 t0 j) =
    if j mod 3 =? 2 then None
    else Some (clock E (t0 + Z.to_nat (2 * (j / 3) + j mod 3))).
Proof.
  intros Hj. unfold record_from.
  assert (Hr : j mod 3 = 0 \/ j mod 3 = 1 \/ j mod 3 = 2) by zdiv.
  destruct Hr as [-> | [-> | ->]]; cbn; try reflexivity.
  rewrite Z.add_0_r. reflexivity.
Qed.

(** X12. When the clock never goes back, the timestamps of a run never
    go back either: of two records that carry one, the later record
    carries the later or equal timestamp. *)
Theorem timestamps_follow_the_clock E N w0 :
  monotone (clock E) ->
  in_range w0 -> 0 <= N <= INT_MAX -> (Z.to_nat N <= length (heap w0))%nat ->
  exists w', fill_export_data E Block N w0 = Done tt w' /\
    forall i j di dj ti tj,
      0 <= i <= j -> j < N ->
      heap w' !! Z.to_nat i = Some (Some di) ->
      heap w' !! Z.to_nat j = Some (Some dj) ->
      timestamp_of di = Some ti -> timestamp_of dj = Some tj ->
      ti <= tj.
Proof.
  intros Hmono Hrange HN Hbuf.
  destruct (fill_export_data_reach E N w0) as (w' & Hrun & Hreach);
    try assumption.
  destruct Hreach as (_ & _ & _ & _ & _ & _ & Hh & _).
  exists w'. split; [exact Hrun |].
  intros i j di dj ti tj Hij HjN Hdi Hdj Hti Htj.
  rewrite Hh in Hdi by lia. rewrite Hh in Hdj by lia.
  injection Hdi as <-. injection Hdj as <-.
  rewrite timestamp_of_record_from in Hti, Htj by lia.
  destruct (Z.eqb_spec (i mod 3) 2) as [| Hi2]; [discriminate |].
  destruct (Z.eqb_spec (j mod 3) 2) as [| Hj2]; [discriminate |].
  injection Hti as <-. injection Htj as <-.
  apply Hmono. zdiv.
Qed.

Lemma timestamps_follow_the_clock_witness :
  exists w', fill_export_data sample_env Block 100 (allocated 100 []) = Done tt w' /\
    forall i j di dj ti tj,
      0 <= i <= j -> j < 100 ->
      heap w' !! Z.to_nat i = Some (Some di) ->
      heap w' !! Z.to_nat j = Some (Some dj) ->
      timestamp_of di = Some ti -> timestamp_of dj = Some tj ->
      ti <= tj.
Proof.
  apply (timestamps_follow_the_clock sample_env 100 (allocated 100 [])).
  - intros m n Hmn. cbn. lia.
  - split; cbn; lia.
  - unfold INT_MAX. lia.
  - cbn. lia.
Defined.

(** ** The file, block by block *)

Lemma concat_block_lookup {X : Type} (n : nat) (bs : list (list X)) :
  Forall (fun b => length b = n) bs ->
  forall i b, bs !! i = Some b ->
    take n (drop (i * n) (concat bs)) = b.
Proof.
  induction 1 as [| b0 bs Hb0 _ IH]; intros i b Hi; [discriminate |].
  destruct i as [| i]; cbn [concat].
  - injection Hi as <-. cbn [Nat.mul drop]. apply take_app_length'.
    symmetry. exact Hb0.
  - cbn [lookup list_lookup] in Hi. cbn [Nat.mul].
    rewrite drop_app_add' by (symmetry; exact Hb0). apply IH. exact Hi.
Qed.

Lemma repr_starts_with_type a blk d :
  well_formed d -> length blk = sizeof_ExportData a ->
  peek 0 sizeof_int (repr_ExportData a blk d) = encode_int a sizeof_int (type d).
Proof.
  intros Hwf Hlen. destruct d as [t [v | m | m]]; unfold well_formed in Hwf;
    cbn [member type] in Hwf.
  - destruct a as [[|] o]; revert Hlen; layout; intros Hlen;
    unfold repr_ExportData, repr_ValueStruct; cbn [member type]; layout;
    peek_through.
  - destruct Hwf as (_ & _ & Hlv & _).
    destruct a as [[|] o]; revert Hlen; layout; intros Hlen;
    unfold repr_ExportData, repr_MValueStruct; cbn [member type]; layout;
    peek_through.
  - destruct Hwf as (_ & _ & Hlm).
    destruct a as [[|] o]; revert Hlen; layout; intros Hlen;
    unfold repr_ExportData, repr_MessageStruct; cbn [member type]; layout;
    peek_through.
Qed.

Lemma well_formed_type d : well_formed d -> 0 <= type d <= 3.
Proof.
  destruct d as [t [v | m | m]]; unfold well_formed; cbn [member type];
    intros (-> & _); lia.
Qed.

(** X9. The file has no header and no separator and keeps the order
    of generation: the bytes from offset [i * sizeof(ExportData)] on
    are the object representation of record [i], and the [int] at that
    offset is its discriminant. *)
Theorem dump_block_i_is_record_i A E N w0 :
  fresh w0 -> 0 <= N <= INT_MAX -> (Z.to_nat N <= length (heap w0))%nat ->
  fopen_ok E = true -> sink_room E = None ->
  exists w1 w2,
    fill_export_data E Block N w0 = Done tt w1 /\
    bind (fopen E) (fun fp => export A E Block N fp) w1 = Done tt w2 /\
    forall (i : nat) d, (i < Z.to_nat N)%nat ->
      heap w1 !! i = Some (Some d) ->
      peek (i * sizeof_ExportData A) (sizeof_ExportData A) (sink w2)
        = repr_ExportData A (blank A E i) d /\
      decode_int A (peek (i * sizeof_ExportData A) sizeof_int (sink w2))
        = type d.
Proof.
  intros Hfresh HN Hbuf Hopen Hroom.
  destruct (generate_and_export_run A E N w0)
    as (w1 & w2 & Hfill & Hrecs & Hexp & Hsink); try assumption.
  set (recs := expected_records E (ticks w0) (Z.to_nat N)) in *.
  assert (Hwf : Forall well_formed recs)
    by apply expected_records_well_formed.
  exists w1, w2. split; [exact Hfill |]. split; [exact Hexp |].
  intros i d Hi Hd.
  assert (Hrec : recs !! i = Some d).
  { rewrite <- (lookup_take_lt _ (Z.to_nat N)), Hrecs, list_lookup_fmap in Hd
      by exact Hi.
    destruct (recs !! i) as [d0 |]; [| discriminate Hd].
    cbn in Hd. congruence. }
  assert (Hd_wf : well_formed d)
    by exact (proj1 (Forall_lookup _ _) Hwf i d Hrec).
  assert (Hblock : peek (i * sizeof_ExportData A) (sizeof_ExportData A) (sink w2)
                   = repr_ExportData A (blank A E i) d).
  { rewrite Hsink. unfold peek.
    apply concat_block_lookup; [apply dump_blocks_sized; exact Hwf |].
    rewrite list_lookup_imap, list_lookup_fmap, Hrec. reflexivity. }
  split; [exact Hblock |].
  assert (H4 : peek (i * sizeof_ExportData A) sizeof_int (sink w2) =
               peek 0 sizeof_int
                 (peek (i * sizeof_ExportData A) (sizeof_ExportData A) (sink w2))).
  { unfold peek. rewrite drop_0, take_take. f_equal.
    destruct A as [[|] o]; layout; reflexivity. }
  rewrite H4, Hblock, repr_starts_with_type
    by (try exact Hd_wf; apply length_blank).
  apply decode_encode_type, well_formed_type, Hd_wf.
Qed.

Lemma dump_block_i_is_record_i_witness :
  exists w1 w2,
    fill_export_data sample_env Block 100 (allocated 100 []) = Done tt w1 /\
    bind (fopen sample_env) (fun fp => export sample_abi sample_env Block 100 fp) w1
      = Done tt w2 /\
    forall (i : nat) d, (i < Z.to_nat 100)%nat ->
      heap w1 !! i = Some (Some d) ->
      peek (i * sizeof_ExportData sample_abi) (sizeof_ExportData sample_abi) (sink w2)
        = repr_ExportData sample_abi (blank sample_abi sample_env i) d /\
      decode_int sample_abi
        (peek (i * sizeof_ExportData sample_abi) sizeof_int (sink w2))
        = type d.
Proof.
  apply (dump_block_i_is_record_i sample_abi sample_env 100 (allocated 100 [])).
  - split; reflexivity.
  - unfold INT_MAX. lia.
  - cbn. lia.
  - reflexivity.
  - reflexivity.
Defined.

(** ** The whole program *)

(** [main] when the allocation and the opening succeed: it returns 0,
    whatever the device takes of the dump. *)
Lemma main_returns A E old :
  malloc_ok E = true -> fopen_ok E = true ->
  exists w, main A E (initial_world old) = Done 0 w /\
    sink w = accepted E (full_dump A E) /\
    heap w = [] /\
    val_counter w = 4 /\ string_counter w = 5 /\ ticks w = 67%nat /\
    stdout w = console_lines 100.
Proof.
  intros Hmem Hopen. unfold main, bind at 1, malloc. rewrite Hmem.
  rewrite Nat.mul_comm, Nat.div_mul
    by (pose proof (sizeof_ExportData_pos A); lia).
  change (Z.to_nat EXPORT_DATA_LEN) with 100%nat.
  change (set_heap (replicate 100 None) (initial_world old))
    with (allocated 100 old).
  destruct (fill_export_data_run E EXPORT_DATA_LEN (allocated 100 old))
    as (w1 & Hrun & Hgen).
  { split; reflexivity. }
  { unfold EXPORT_DATA_LEN, INT_MAX. lia. }
  { unfold EXPORT_DATA_LEN. cbn. lia. }
  destruct (fill_export_data_reach E EXPORT_DATA_LEN (allocated 100 old))
    as (w1' & Hrun' & Hreach).
  { split; cbn; lia. }
  { unfold EXPORT_DATA_LEN, INT_MAX. lia. }
  { unfold EXPORT_DATA_LEN. cbn. lia. }
  rewrite Hrun in Hrun'. injection Hrun' as <-.
  pose proof (generated_records E _ w1 EXPORT_DATA_LEN
                ltac:(unfold EXPORT_DATA_LEN; lia) Hgen) as Hrecs.
  change (Z.to_nat EXPORT_DATA_LEN) with 100%nat in Hrecs.
  change (ticks (allocated 100 old)) with 0%nat in Hrecs.
  destruct Hreach as (Hv & Hs & Ht & Ho & _ & Hl & _ & _).
  unfold bind at 1. rewrite Hrun.
  unfold bind at 1. unfold fopen. rewrite Hopen.
  unfold bind at 1. unfold export, fwrite, bind at 1.
  cbn [heap set_sink sink].
  change (Z.to_nat EXPORT_DATA_LEN) with 100%nat.
  destruct (Nat.leb_spec 100 (length (heap w1))) as [_ | Hbad];
    [| rewrite Hl in Hbad; cbn in Hbad; lia].
  rewrite Hrecs. fold (full_dump A E).
  unfold bind, ret, free, modify. cbn.
  eexists. split; [reflexivity |]. cbn.
  repeat split; assumption.
Qed.

Lemma length_full_dump A E :
  length (full_dump A E) = (100 * sizeof_ExportData A)%nat.
Proof.
  unfold full_dump.
  rewrite (length_concat_blocks (sizeof_ExportData A))
    by (apply dump_blocks_sized, expected_records_well_formed).
  rewrite length_imap, length_fmap, length_expected_records. reflexivity.
Qed.

(** X10. With memory, a file that opens and a device that takes every
    byte, [main] returns 0; the file then holds the hundred blocks and
    nothing of what it held before, the block is released, and the
    float cursor stands at 4, the string cursor at 5, after 67 readings
    of the clock. *)
Theorem main_succeeds A E old :
  malloc_ok E = true -> fopen_ok E = true -> sink_room E = None ->
  exists w, main A E (initial_world old) = Done 0 w /\
    sink w = full_dump A E /\
    length (sink w) = (100 * sizeof_ExportData A)%nat /\
    heap w = [] /\
    val_counter w = 4 /\ string_counter w = 5 /\ ticks w = 67%nat.
Proof.
  intros Hmem Hopen Hroom.
  destruct (main_returns A E old Hmem Hopen)
    as (w & Hmain & Hsink & Hheap & Hv & Hs & Ht & _).
  unfold accepted in Hsink. rewrite Hroom in Hsink.
  exists w. split; [exact Hmain |]. split; [exact Hsink |].
  split; [rewrite Hsink; apply length_full_dump |].
  repeat split; assumption.
Qed.

Lemma main_succeeds_witness :
  exists w, main sample_abi sample_env (initial_world [x00; x01]) = Done 0 w /\
    sink w = full_dump sample_abi sample_env /\
    length (sink w) = (100 * sizeof_ExportData sample_abi)%nat /\
    heap w = [] /\
    val_counter w = 4 /\ string_counter w = 5 /\ ticks w = 67%nat.
Proof.
  apply (main_succeeds sample_abi sample_env [x00; x01]); reflexivity.
Defined.

(** X11. [export] drops the count [fwrite] returns and [main] tests
    nothing: when the device takes only [room] bytes, [main] still
    returns 0, and the file holds the first [room] bytes of the dump,
    a last block cut short included. *)
Theorem main_returns_0_on_short_write A E old room :
  malloc_ok E = true -> fopen_ok E = true -> sink_room E = Some room ->
  exists w, main A E (initial_world old) = Done 0 w /\
    sink w = take room (full_dump A E) /\
    length (sink w) = Nat.min room (100 * sizeof_ExportData A).
Proof.
  intros Hmem Hopen Hroom.
  destruct (main_returns A E old Hmem Hopen)
    as (w & Hmain & Hsink & _).
  unfold accepted in Hsink. rewrite Hroom in Hsink.
  exists w. split; [exact Hmain |]. split; [exact Hsink |].
  rewrite Hsink, length_take, length_full_dump. reflexivity.
Qed.

Lemma main_returns_0_on_short_write_witness :
  exists w, main sample_abi small_disk_env (initial_world []) = Done 0 w /\
    sink w = take 1000 (full_dump sample_abi small_disk_env) /\
    length (sink w) = Nat.min 1000 (100 * sizeof_ExportData sample_abi).
Proof.
  apply (main_returns_0_on_short_write sample_abi small_disk_env [] 1000);
    reflexivity.
Defined.

(** ** The writer on its own *)




(** ** Where the payload starts *)


